(** * The application bootstrapper of [src/framework/index.ts]

    [createApp] discovers the schema modules of a project, resolves the
    context module and returns an object whose [startServer] builds the
    schema and starts the HTTP listener.  Everything it does is a call into
    a library (fs-jetpack, debug, Node's [require], nexus, apollo, express),
    so the program is embedded as a tree of library calls ([Prog]); a [Host]
    answers the calls, [run] executes a program against a host and records
    the calls with their replies in a trace. *)

From Stdlib Require Import Ascii.
From stdpp Require Import gmap strings list pretty.

(** ** Values exchanged with the libraries *)

(** What [fs.exists] answers: [false], ['dir'], ['file'] or ['other']. *)
Inductive exists_result := ExFalse | ExDir | ExFile | ExOther.

(** The search options object given to [fs.find]. *)
Record find_options := FindOptions {
  files : bool;
  directories : bool;
  recursive : bool;
  matching : string
}.

(** A reference to an object owned by a library (a schema, a plugin, a
    server, an express application, an exported function). *)
Definition handle := positive.

Record typegen_source := TypegenSource { source : string; alias : string }.

Record typegen_auto_config := TypegenAutoConfig {
  contextType : string;
  sources : list typegen_source
}.

(** The argument of [nexusPrismaPlugin]. *)
Record prisma_plugin_config := PrismaPluginConfig {
  inputs_photon : string;
  outputs_typegen : string;
  plugin_shouldGenerateArtifacts : bool
}.

(** The argument of [makeSchema]. *)
Record schema_config := SchemaConfig {
  typegenAutoConfig : typegen_auto_config;
  schema_shouldGenerateArtifacts : bool;
  schema_shouldExitAfterGenerateArtifacts : bool;
  plugins : list handle
}.

(** The argument of [new ApolloServer]; a field that reads [undefined] is
    [None]. *)
Record apollo_config := ApolloConfig {
  apollo_playground : option bool;
  apollo_introspection : option bool;
  apollo_context : option handle;
  apollo_schema : handle
}.

(** [app.listen] hands its callback to the event loop, which runs it once
    the listener is bound, if it ever is. *)
Inductive listen_result := Listening | NeverBound.

(** ** Library calls *)

(** The calls the program makes, indexed by the type of what they return.
    A module's exports and [process.env] are JS objects used as maps;
    [ProcessEnv] reads the whole of [process.env], which lines 113 to 122
    consult with no call in between.  [AppListen] answers whether the
    listener got bound, which is when the callback given to [app.listen]
    runs. *)
Inductive call : Type → Type :=
| DebugLog (fmt : string) (args : list string) : call unit
| FsExists (p : string) : call exists_result
| FsFind (p : string) (o : find_options) : call (list string)
| FsWrite (p content : string) : call unit
| RequireModule (p : string) : call (gmap string handle)
| ProcessEnv : call (gmap string string)
| NexusPrismaPlugin (cfg : prisma_plugin_config) : call handle
| MakeSchema (cfg : schema_config) : call handle
| NewApolloServer (cfg : apollo_config) : call handle
| Express : call handle
| ApplyMiddleware (server app : handle) : call unit
| AppListen (app : handle) (port : option Z) : call listen_result
| ConsoleLog (msg : string) : call unit.

(** A call returns, or raises an exception that nothing in this program
    catches. *)
Inductive reply (X : Type) :=
| Returns (x : X)
| Raises (exn : string).
Arguments Returns {X} x.
Arguments Raises {X} exn.

(** A call together with its reply. *)
Record event := Event { ev_type : Type; ev_call : call ev_type; ev_reply : reply ev_type }.
Arguments Event {ev_type} ev_call ev_reply.

Definition trace := list event.

(** ** Programs *)

(** A program returns a value, throws an error of its own (a [throw]
    statement, or a type error of the language), or makes a call and goes on
    with what the call returns. *)
Inductive Prog (A : Type) : Type :=
| Ret (a : A)
| Throw (msg : string)
| Vis {X : Type} (c : call X) (k : X → Prog A).
Arguments Ret {A} a.
Arguments Throw {A} msg.
Arguments Vis {A X} c k.

Fixpoint bind {A B} (m : Prog A) (f : A → Prog B) : Prog B :=
  match m with
  | Ret a => f a
  | Throw msg => Throw msg
  | Vis c k => Vis c (λ x, bind (k x) f)
  end.

Definition perform {X} (c : call X) : Prog X := Vis c Ret.

#[global] Instance Prog_ret : MRet Prog := @Ret.
#[global] Instance Prog_bind : MBind Prog := λ A B f m, bind m f.

(** [Array.prototype.forEach] with a callback that makes calls. *)
Fixpoint forEach {A} (l : list A) (f : A → Prog unit) : Prog unit :=
  match l with
  | [] => Ret tt
  | x :: l' => f x ;; forEach l' f
  end.

(** ** Hosts and runs *)

(** A host answers every call from its state: the libraries, the file
    system, the modules of the project and the process environment. *)
Record Host := {
  state : Type;
  answer : ∀ X, call X → state → state * reply X
}.
Arguments answer h {X} c s.

(** How a run ends: the program returned, executed its own [throw], or a
    call raised and the exception propagated. *)
Inductive outcome (A : Type) :=
| Returned (a : A)
| Threw (msg : string)
| Propagated (exn : string).
Arguments Returned {A} a.
Arguments Threw {A} msg.
Arguments Propagated {A} exn.

Fixpoint run {A} (h : Host) (s : state h) (p : Prog A) : trace * state h * outcome A :=
  match p with
  | Ret a => ([], s, Returned a)
  | Throw msg => ([], s, Threw msg)
  | Vis c k =>
      let '(s', r) := answer h c s in
      match r with
      | Returns x => let '(t, s'', o) := run h s' (k x) in (Event c r :: t, s'', o)
      | Raises exn => ([Event c r], s', Propagated exn)
      end
  end.

Definition trace_of {A} (h : Host) (s : state h) (p : Prog A) : trace := (run h s p).1.1.
Definition state_after {A} (h : Host) (s : state h) (p : Prog A) : state h := (run h s p).1.2.
Definition outcome_of {A} (h : Host) (s : state h) (p : Prog A) : outcome A := (run h s p).2.
#[global] Arguments trace_of : simpl never.
#[global] Arguments state_after : simpl never.
#[global] Arguments outcome_of : simpl never.

(** ** Server options *)

(** An own property of an options object: missing, or present with a value
    that may be [undefined]. *)
Inductive prop (T : Type) :=
| Absent
| Present (v : option T).
Arguments Absent {T}.
Arguments Present {T} v.

(** Reading a property: a missing one reads [undefined]. *)
Definition get {T} (p : prop T) : option T :=
  match p with
  | Absent => None
  | Present v => v
  end.

(** [type ServerOptions]; a port is a number that holds an integer, and the
    start message receives whatever the merged [port] reads. *)
Record ServerOptions := {
  port : prop Z;
  startMessage : prop (option Z → string);
  playground : prop bool;
  introspection : prop bool
}.

(** [${port}] inside a template literal. *)
Definition template_number (n : option Z) : string :=
  match n with
  | Some z => pretty z
  | None => "undefined"
  end.

Definition defaultStartMessage (port : option Z) : string :=
  "🎃  Server ready at http://localhost:" +:+ template_number port +:+ "/".

Definition defaultServerOptions : ServerOptions := {|
  port := Present (Some 4000%Z);
  startMessage := Present (Some defaultStartMessage);
  introspection := Present (Some true);
  playground := Present (Some true)
|}.

(** The options object [{}] that [startServer] takes when it is called
    without an argument. *)
Definition emptyOptions : ServerOptions := {|
  port := Absent;
  startMessage := Absent;
  playground := Absent;
  introspection := Absent
|}.

(** Object spread [{...a, ...b}], property by property: an own property of
    [b] wins, whatever it holds. *)
Definition spread_prop {T} (a b : prop T) : prop T :=
  match b with
  | Absent => a
  | Present _ => b
  end.

Definition spread (a b : ServerOptions) : ServerOptions := {|
  port := spread_prop (port a) (port b);
  startMessage := spread_prop (startMessage a) (startMessage b);
  playground := spread_prop (playground a) (playground b);
  introspection := spread_prop (introspection a) (introspection b)
|}.

(** ** Flags read from the process environment *)

(** [v === lit] for a variable of [process.env], which holds a string or
    is [undefined]. *)
Definition strict_equals (v : option string) (lit : string) : bool :=
  bool_decide (v = Some lit).

(** [!v]: [undefined] and the empty string are falsy. *)
Definition js_not (v : option string) : bool :=
  match v with
  | None => true
  | Some s => bool_decide (s = "")
  end.

Definition shouldGenerateArtifacts (env : gmap string string) : bool :=
  if strict_equals (env !! "PUMPKINS_SHOULD_GENERATE_ARTIFACTS") "true" then true
  else if strict_equals (env !! "PUMPKINS_SHOULD_GENERATE_ARTIFACTS") "false" then false
  else js_not (env !! "NODE_ENV") || strict_equals (env !! "NODE_ENV") "development".

Definition shouldExitAfterGenerateArtifacts (env : gmap string string) : bool :=
  if strict_equals (env !! "PUMPKINS_SHOULD_EXIT_AFTER_GENERATE_ARTIFACTS") "true" then true
  else false.

(** ** The application *)

Record App := { startServer : option ServerOptions → Prog unit }.

Definition newline : string := String (Ascii.ascii_of_nat 10) "".

Definition lines (l : list string) : string := String.concat newline l.

(** The source text of the default context module, a template literal
    around the path of the generated Photon package. *)
Definition defaultContextSource (generatedPhotonPackagePath : string) : string :=
  lines [
    "import { Photon } from '" +:+ generatedPhotonPackagePath +:+ "'";
    "";
    "      const photon = new Photon()";
    "      ";
    "      export type Context = {";
    "        photon: Photon";
    "      }";
    "      ";
    "      export const createContext = (): Context => ({";
    "        photon,";
    "      })"
  ].

Definition context_folder_error : string :=
  "context.ts must be a file, but it was a folder!".

Definition find_schema_options : find_options := {|
  files := true;
  directories := false;
  recursive := true;
  matching := "*.ts"
|}.

Section Framework.

(** [fs.path] resolves a path against the working directory, [path.join]
    joins two segments; both are pure functions of their arguments. *)
Variable fs_path : string → string.
Variable path_join : string → string → string.

(** The callback given to [forEach] over the modules that [fs.find] lists. *)
Definition importSchemaModule (schemaModulePath : string) : Prog unit :=
  perform (DebugLog "importing %s" [schemaModulePath]) ;;
  perform (RequireModule (fs_path schemaModulePath)) ;;
  Ret tt.

(** Lines 93 to 111 of [createApp]: find and import the schema modules. *)
Definition loadSchemaModules : Prog unit :=
  perform (DebugLog "finding schema modules ..." []) ;;
  dir ← perform (FsExists (fs_path "server/schema"));
  match dir with
  | ExDir =>
      found ← perform (FsFind (fs_path "server/schema") find_schema_options);
      forEach found importSchemaModule
  | _ =>
      root ← perform (FsExists (fs_path "schema.ts"));
      match root with
      | ExFile =>
          perform (DebugLog "importing %s" ["schema.ts"]) ;;
          perform (RequireModule (fs_path "schema.ts")) ;;
          Ret tt
      | _ =>
          server ← perform (FsExists (fs_path "server/schema.ts"));
          match server with
          | ExFile =>
              perform (DebugLog "importing %s" ["server/schema.ts"]) ;;
              perform (RequireModule (fs_path "server/schema.ts")) ;;
              Ret tt
          | _ => Ret tt
          end
      end
  end.

(** Lines 132 to 161 of [createApp]: the path of the context module. *)
Definition resolveContextModule (generatedPhotonPackagePath : string) : Prog string :=
  let contextModulePathOptional := fs_path "server/context.ts" in
  userHasContextModule ← perform (FsExists contextModulePathOptional);
  match userHasContextModule with
  | ExFile => Ret contextModulePathOptional
  | ExDir => Throw context_folder_error
  | _ =>
      let contextModulePathPumpkins := fs_path ".pumpkins/context.ts" in
      perform (FsWrite contextModulePathPumpkins
                 (defaultContextSource generatedPhotonPackagePath)) ;;
      Ret contextModulePathPumpkins
  end.

(** [mergedConfig.startMessage(mergedConfig.port)]: calling what is not a
    function is a type error. *)
Definition callStartMessage (mergedConfig : ServerOptions) : Prog string :=
  match get (startMessage mergedConfig) with
  | Some f => Ret (f (get (port mergedConfig)))
  | None => Throw "TypeError: mergedConfig.startMessage is not a function"
  end.

(** The body of [startServer], over the variables of [createApp] that it
    closes over. *)
Definition startServerBody
    (shouldGenerate shouldExit : bool) (generatedPhotonPackagePath contextModulePath : string)
    (context : gmap string handle) (config : option ServerOptions) : Prog unit :=
  let config := default emptyOptions config in
  let mergedConfig := spread defaultServerOptions config in
  plugin ← perform (NexusPrismaPlugin {|
    inputs_photon := generatedPhotonPackagePath;
    outputs_typegen := fs_path "node_modules/@types/nexus-typegen-prisma/index.d.ts";
    plugin_shouldGenerateArtifacts := shouldGenerate
  |});
  schema ← perform (MakeSchema {|
    typegenAutoConfig := {|
      contextType := "Context.Context";
      sources := [
        {| source := contextModulePath; alias := "Context" |};
        {| source := path_join generatedPhotonPackagePath "/index.d.ts"; alias := "photon" |}
      ]
    |};
    schema_shouldGenerateArtifacts := shouldGenerate;
    schema_shouldExitAfterGenerateArtifacts := shouldExit;
    plugins := [plugin]
  |});
  server ← perform (NewApolloServer {|
    apollo_playground := get (playground mergedConfig);
    apollo_introspection := get (introspection mergedConfig);
    apollo_context := context !! "createContext";
    apollo_schema := schema
  |});
  app ← perform Express;
  perform (ApplyMiddleware server app) ;;
  bound ← perform (AppListen app (get (port mergedConfig)));
  match bound with
  | Listening =>
      message ← callStartMessage mergedConfig;
      perform (ConsoleLog message)
  | NeverBound => Ret tt
  end.

(** Lines 113 to 213 of [createApp]: the flags, the context module and the
    application object. *)
Definition assembleApp : Prog App :=
  env ← perform ProcessEnv;
  let shouldGenerate := shouldGenerateArtifacts env in
  let shouldExit := shouldExitAfterGenerateArtifacts env in
  let generatedPhotonPackagePath := fs_path "node_modules/@generated/photon" in
  contextModulePath ← resolveContextModule generatedPhotonPackagePath;
  context ← perform (RequireModule contextModulePath);
  Ret {| startServer :=
           startServerBody shouldGenerate shouldExit generatedPhotonPackagePath
             contextModulePath context |}.

Definition createApp : Prog App :=
  loadSchemaModules ;;
  assembleApp.

(** [createApp()] followed by [startServer(config)] on its result. *)
Definition createAppAndStart (config : option ServerOptions) : Prog unit :=
  app ← createApp;
  startServer app config.

(** The four conventional paths that [createApp] probes with [fs.exists]. *)
Definition conventional_paths : list string :=
  ["server/schema"; "schema.ts"; "server/schema.ts"; "server/context.ts"].

End Framework.

(** ** What a trace shows *)

(** The replies that [fs.exists] gave, by path. *)
Definition probe_of (e : event) : option (string * reply exists_result) :=
  match ev_call e in call X return reply X → option (string * reply exists_result) with
  | FsExists p => λ r, Some (p, r)
  | _ => λ _, None
  end (ev_reply e).

(** The reply to the first probe of path [p], if [p] was probed. *)
Fixpoint probed (t : trace) (p : string) : option (reply exists_result) :=
  match t with
  | [] => None
  | e :: t' =>
      match probe_of e with
      | Some (q, r) => if decide (q = p) then Some r else probed t' p
      | None => probed t' p
      end
  end.

(** The calls of [fs.find], in order: the directory, the options and the
    reply. *)
Definition find_of (e : event) : option (string * find_options * reply (list string)) :=
  match ev_call e in call X
        return reply X → option (string * find_options * reply (list string)) with
  | FsFind p o => λ r, Some (p, o, r)
  | _ => λ _, None
  end (ev_reply e).

Definition finds (t : trace) : list (string * find_options * reply (list string)) :=
  omap find_of t.

(** The modules given to [require], in order. *)
Definition require_of (e : event) : option string :=
  match ev_call e with
  | RequireModule p => Some p
  | _ => None
  end.

Definition requires (t : trace) : list string := omap require_of t.

(** The files written, in order: path and content. *)
Definition write_of (e : event) : option (string * string) :=
  match ev_call e with
  | FsWrite p content => Some (p, content)
  | _ => None
  end.

Definition writes (t : trace) : list (string * string) := omap write_of t.

(** The ports given to [app.listen] and the messages given to
    [console.log]. *)
Definition listen_of (e : event) : option (option Z) :=
  match ev_call e with
  | AppListen _ port => Some port
  | _ => None
  end.

Definition listens (t : trace) : list (option Z) := omap listen_of t.

Definition log_of (e : event) : option string :=
  match ev_call e with
  | ConsoleLog msg => Some msg
  | _ => None
  end.

Definition logs (t : trace) : list string := omap log_of t.

(** The configurations given to [new ApolloServer]. *)
Definition apollo_of (e : event) : option apollo_config :=
  match ev_call e with
  | NewApolloServer cfg => Some cfg
  | _ => None
  end.

Definition apollos (t : trace) : list apollo_config := omap apollo_of t.

(** Whether the listener got bound. *)
Definition bound_of (e : event) : bool :=
  match ev_call e in call X return reply X → bool with
  | AppListen _ _ => λ r, match r with Returns Listening => true | _ => false end
  | _ => λ _, false
  end (ev_reply e).

Definition listening (t : trace) : bool := existsb bound_of t.

(** The calls of [startServer] that construct the server, the schema build
    among them. *)
Definition is_server_construction (e : event) : bool :=
  match ev_call e with
  | NexusPrismaPlugin _ | MakeSchema _ | NewApolloServer _ | Express
  | ApplyMiddleware _ _ | AppListen _ _ => true
  | _ => false
  end.

Definition is_schema_build (e : event) : bool :=
  match ev_call e with
  | MakeSchema _ => true
  | _ => false
  end.

(** The calls that only [debug] or probe with [fs.exists]. *)
Definition is_debug_or_probe (e : event) : bool :=
  match ev_call e with
  | DebugLog _ _ | FsExists _ => true
  | _ => false
  end.

(** Calls that touch the file system or evaluate a module. *)
Definition is_loading (e : event) : bool :=
  match ev_call e with
  | FsExists _ | FsFind _ _ | FsWrite _ _ | RequireModule _ => true
  | _ => false
  end.

Definition raised_of (e : event) : bool :=
  match ev_reply e with
  | Raises _ => true
  | Returns _ => false
  end.

(** Whether some call of the trace raised. *)
Definition raised (t : trace) : bool := existsb raised_of t.

(** [needle] occurs in [text]. *)
Definition occurs_in (needle text : string) : Prop :=
  ∃ before after, text = before +:+ needle +:+ after.

(** ** A host that keeps a project in memory

    It answers the calls from a small file system, an environment and a
    counter for fresh references, and serves to run the program on
    examples. *)
Module Sim.

Inductive node :=
| File (content : string)
| Dir
| Other.

Record world := World {
  cwd : string;
  fs : gmap string node;
  env : gmap string string;
  next : handle;
  console : list string;
  port_free : bool
}.

Definition path (cwd rel : string) : string := cwd +:+ "/" +:+ rel.

Definition join (a b : string) : string := a +:+ b.

Definition ends_with (suffix s : string) : bool :=
  String.prefix (String.rev suffix) (String.rev s).

Definition relative (cwd p : string) : string :=
  String.substring (S (String.length cwd)) (String.length p) p.

Definition matches (pattern p : string) : bool :=
  match pattern with
  | String "*"%char extension => ends_with extension p
  | _ => ends_with ("/" +:+ pattern) p
  end.

Definition below (dir : string) (o : find_options) (p : string) : bool :=
  String.prefix (dir +:+ "/") p &&
  (recursive o ||
   bool_decide (String.index (S (String.length dir)) "/" p = None)).

Definition listed (w : world) (dir : string) (o : find_options) (entry : string * node) : option string :=
  let '(p, n) := entry in
  if below dir o p && matches (matching o) p then
    match n with
    | File _ => if files o then Some (relative (cwd w) p) else None
    | Dir => if directories o then Some (relative (cwd w) p) else None
    | Other => None
    end
  else None.

Definition find (w : world) (dir : string) (o : find_options) : list string :=
  omap (listed w dir o) (map_to_list (fs w)).

Definition exists_ (w : world) (p : string) : exists_result :=
  match fs w !! p with
  | None => ExFalse
  | Some (File _) => ExFile
  | Some Dir => ExDir
  | Some Other => ExOther
  end.

Definition exports_of (content : string) : gmap string handle :=
  match String.index 0 "export const createContext" content with
  | Some _ => {[ "createContext" := 1%positive ]}
  | None => ∅
  end.

Definition fresh (w : world) : world * reply handle :=
  (World (cwd w) (fs w) (env w) (Pos.succ (next w)) (console w) (port_free w),
   Returns (next w)).

Definition respond (X : Type) (c : call X) (w : world) : world * reply X :=
  match c in call X return world * reply X with
  | DebugLog _ _ => (w, Returns tt)
  | FsExists p => (w, Returns (exists_ w p))
  | FsFind p o => (w, Returns (find w p o))
  | FsWrite p content =>
      match fs w !! p with
      | Some Dir => (w, Raises "EISDIR")
      | _ => (World (cwd w) (<[p := File content]> (fs w)) (env w) (next w)
                (console w) (port_free w), Returns tt)
      end
  | RequireModule p =>
      match fs w !! p with
      | Some (File content) => (w, Returns (exports_of content))
      | _ => (w, Raises "Cannot find module")
      end
  | ProcessEnv => (w, Returns (env w))
  | NexusPrismaPlugin _ | MakeSchema _ | NewApolloServer _ | Express => fresh w
  | ApplyMiddleware _ _ => (w, Returns tt)
  | AppListen _ _ => (w, Returns (if port_free w then Listening else NeverBound))
  | ConsoleLog msg =>
      (World (cwd w) (fs w) (env w) (next w) (console w ++ [msg]) (port_free w),
       Returns tt)
  end.

Definition host : Host := {| state := world; answer := respond |}.

(** A project in [/app] whose files are [entries], paths relative to the
    project. *)
Definition project (entries : list (string * node)) (vars : list (string * string)) : world := {|
  cwd := "/app";
  fs := list_to_map (prod_map (path "/app") id <$> entries);
  env := list_to_map vars;
  next := 1%positive;
  console := [];
  port_free := true
|}.

End Sim.

(** ** Example projects *)

(** A project with a schema directory and both single schema files. *)
Definition schema_directory_project : Sim.world :=
  Sim.project
    [("server/schema", Sim.Dir);
     ("server/schema/user.ts", Sim.File "objectType({ name: 'User' })");
     ("server/schema/blog", Sim.Dir);
     ("server/schema/blog/post.ts", Sim.File "objectType({ name: 'Post' })");
     ("server/schema/README.md", Sim.File "notes");
     ("schema.ts", Sim.File "queryType({})");
     ("server/schema.ts", Sim.File "queryType({})")] [].

(** A project whose [server/context.ts] is a folder. *)
Definition context_folder_project : Sim.world :=
  Sim.project [("schema.ts", Sim.File "queryType({})"); ("server/context.ts", Sim.Dir)] [].

(** A project with its own context module. *)
Definition user_context_project : Sim.world :=
  Sim.project
    [("schema.ts", Sim.File "queryType({})");
     ("server/context.ts", Sim.File "export const createContext = () => ({})")] [].

(** A project with no schema and no context module. *)
Definition empty_project : Sim.world := Sim.project [] [].

(** A project where [server/schema] is a file. *)
Definition schema_file_project : Sim.world :=
  Sim.project
    [("server/schema", Sim.File "queryType({})"); ("schema.ts", Sim.File "queryType({})")] [].

(** The options [{port: 5000}]. *)
Definition port_5000 : ServerOptions := {|
  port := Present (Some 5000%Z);
  startMessage := Absent;
  playground := Absent;
  introspection := Absent
|}.

(** ** The branches of the schema loader

    A branch of the [if] / [else if] chain is entered when its probe is made
    and answers what the branch asks for. *)
Definition directory_branch (fs_path : string → string) (t : trace) : Prop :=
  probed t (fs_path "server/schema") = Some (Returns ExDir).

Definition root_file_branch (fs_path : string → string) (t : trace) : Prop :=
  probed t (fs_path "schema.ts") = Some (Returns ExFile).

Definition server_file_branch (fs_path : string → string) (t : trace) : Prop :=
  probed t (fs_path "server/schema.ts") = Some (Returns ExFile).

(** ** The schema registry *)

(** The modules whose evaluation by [require] completed. *)
Definition loaded_of (e : event) : option string :=
  match ev_call e in call X return reply X → option string with
  | RequireModule p => λ r, match r with Returns _ => Some p | Raises _ => None end
  | _ => λ _, None
  end (ev_reply e).

(** Modelled from the spec: the process-wide schema registry that
    [createNexusSingleton] of [./nexus] keeps, which is not under src/.  The
    spec has it created empty at process start and populated by the
    registration calls that the loaded schema modules make when they are
    evaluated; [definitions p] are the definitions that module [p]
    registers, and [t] is the trace of the schema loader. *)
Definition schema_registry (definitions : string → list string) (t : trace) : list string :=
  omap loaded_of t ≫= definitions.

(** ** A host that reports a file as absent *)

Definition probe_path (e : event) : option string :=
  match ev_call e with
  | FsExists q => Some q
  | _ => None
  end.

(** The reply to [fs.exists] of path [p] with ['file'] turned into [false];
    any other reply is kept. *)
Definition as_absent_reply (p : string) {X} (c : call X) : reply X → reply X :=
  match c in call X return reply X → reply X with
  | FsExists q => λ r,
      if decide (q = p) then
        match r with
        | Returns ExFile => Returns ExFalse
        | _ => r
        end
      else r
  | _ => λ r, r
  end.

Definition as_absent_event (p : string) (e : event) : event :=
  Event (ev_call e) (as_absent_reply p (ev_call e) (ev_reply e)).

Definition as_absent_host (p : string) (h : Host) : Host := {|
  state := state h;
  answer X c s := ((answer h c s).1, as_absent_reply p c (answer h c s).2)
|}.

(** ** The tri-state reading of a flag *)

(** A flag variable read the tri-state way: ['true'] and ['false'] are taken
    literally, anything else gives the fallback. *)
Definition tri_state (value : option string) (fallback : bool) : bool :=
  if strict_equals value "true" then true
  else if strict_equals value "false" then false
  else fallback.

(** The environment mode is development-like. *)
Definition development_like (env : gmap string string) : bool :=
  js_not (env !! "NODE_ENV") || strict_equals (env !! "NODE_ENV") "development".

(** Both flags are parsed the same way: one function gives each flag from
    the value of its variable and the environment mode. *)
Definition flags_parsed_alike : Prop :=
  ∃ parse : option string → option string → bool,
    ∀ env : gmap string string,
      shouldGenerateArtifacts env =
        parse (env !! "PUMPKINS_SHOULD_GENERATE_ARTIFACTS") (env !! "NODE_ENV") ∧
      shouldExitAfterGenerateArtifacts env =
        parse (env !! "PUMPKINS_SHOULD_EXIT_AFTER_GENERATE_ARTIFACTS") (env !! "NODE_ENV").

(** ** More of what a trace shows *)

(** The replies to the reads of [process.env], in order. *)
Definition env_of (e : event) : option (reply (gmap string string)) :=
  match ev_call e in call X return reply X → option (reply (gmap string string)) with
  | ProcessEnv => λ r, Some r
  | _ => λ _, None
  end (ev_reply e).

Definition envs (t : trace) : list (reply (gmap string string)) := omap env_of t.

(** The configurations given to [nexusPrismaPlugin]. *)
Definition plugin_of (e : event) : option prisma_plugin_config :=
  match ev_call e with
  | NexusPrismaPlugin cfg => Some cfg
  | _ => None
  end.

Definition plugin_configs (t : trace) : list prisma_plugin_config := omap plugin_of t.

(** The calls of [makeSchema]: the configuration and the reply. *)
Definition schema_of (e : event) : option (schema_config * reply handle) :=
  match ev_call e in call X return reply X → option (schema_config * reply handle) with
  | MakeSchema cfg => λ r, Some (cfg, r)
  | _ => λ _, None
  end (ev_reply e).

Definition schemas (t : trace) : list (schema_config * reply handle) := omap schema_of t.

(** The lines given to [debug]: the format and its arguments. *)
Definition debug_of (e : event) : option (string * list string) :=
  match ev_call e with
  | DebugLog fmt args => Some (fmt, args)
  | _ => None
  end.

Definition debugs (t : trace) : list (string * list string) := omap debug_of t.

(** The paths given to [fs.exists]. *)
Definition probe_paths (t : trace) : list string := omap probe_path t.

(** ** A host on which some calls fail *)

(** [failing_on bad exn h] raises [exn] on the calls that [bad] selects and
    answers the other calls as [h] does. *)
Definition failing_on (bad : ∀ X, call X → bool) (exn : string) (h : Host) : Host := {|
  state := state h;
  answer X c s := if bad X c then (s, Raises exn) else answer h c s
|}.

Definition is_make_schema (X : Type) (c : call X) : bool :=
  match c with
  | MakeSchema _ => true
  | _ => false
  end.

Definition is_require_of (p : string) (X : Type) (c : call X) : bool :=
  match c with
  | RequireModule q => bool_decide (q = p)
  | _ => false
  end.

(** The options [{startMessage: undefined}] and [{port: undefined}]. *)
Definition undefined_start_message : ServerOptions := {|
  port := Absent;
  startMessage := Present None;
  playground := Absent;
  introspection := Absent
|}.

Definition undefined_port : ServerOptions := {|
  port := Present None;
  startMessage := Absent;
  playground := Absent;
  introspection := Absent
|}.

(** ** The module itself *)

(** What [createNexusSingleton()] returns, as lines 12 to 21 destructure
    it. *)
Record NexusSingleton := {
  queryType : handle;
  mutationType : handle;
  objectType : handle;
  inputObjectType : handle;
  enumType : handle;
  scalarType : handle;
  unionType : handle;
  makeSchema : handle
}.

(** Lines 33 to 41: the assignments to the global object, a JS object used
    as a map, in the order of the source; [intArg] and [stringArg] are the
    imports from [nexus]. *)
Definition augmentGlobal (nexus : NexusSingleton) (intArg stringArg : handle)
    (global : gmap string handle) : gmap string handle :=
  let global := <["queryType" := queryType nexus]> global in
  let global := <["mutationType" := mutationType nexus]> global in
  let global := <["objectType" := objectType nexus]> global in
  let global := <["inputObjectType" := inputObjectType nexus]> global in
  let global := <["enumType" := enumType nexus]> global in
  let global := <["scalarType" := scalarType nexus]> global in
  let global := <["unionType" := unionType nexus]> global in
  let global := <["intArg" := intArg]> global in
  <["stringArg" := stringArg]> global.

(** Line 215: [export { objectType, inputObjectType, enumType, scalarType,
    unionType }]. *)
Definition exportedBuilders (nexus : NexusSingleton) : gmap string handle :=
  <["objectType" := objectType nexus]>
    (<["inputObjectType" := inputObjectType nexus]>
       (<["enumType" := enumType nexus]>
          (<["scalarType" := scalarType nexus]>
             (<["unionType" := unionType nexus]> ∅)))).

(** The names that lines 33 to 41 assign. *)
Definition global_names : list string :=
  ["queryType"; "mutationType"; "objectType"; "inputObjectType"; "enumType";
   "scalarType"; "unionType"; "intArg"; "stringArg"].

(** A project whose schema directory holds no [*.ts] file, beside a
    [schema.ts]. *)
Definition empty_schema_directory_project : Sim.world :=
  Sim.project
    [("server/schema", Sim.Dir);
     ("server/schema/README.md", Sim.File "notes");
     ("schema.ts", Sim.File "queryType({})")] [].

(** ** Programs and the events they can produce *)

(** Every event that [p] can produce satisfies [P], whatever the replies. *)
Inductive only_events {A} (P : event → Prop) : Prog A → Prop :=
| only_ret a : only_events P (Ret a)
| only_throw msg : only_events P (Throw msg)
| only_vis X (c : call X) k :
    (∀ r, P (Event c r)) → (∀ x, only_events P (k x)) → only_events P (Vis c k).

(** * Properties *)

(** ** Runs *)

Lemma bind_unfold {A B} (m : Prog A) (f : A → Prog B) : m ≫= f = bind m f.
Proof. reflexivity. Qed.

Lemma run_bind {A B} (h : Host) (s : state h) (m : Prog A) (f : A → Prog B) :
  run h s (bind m f) =
    match run h s m with
    | (t, s', Returned a) => let '(t', s'', o) := run h s' (f a) in (t ++ t', s'', o)
    | (t, s', Threw msg) => (t, s', Threw msg)
    | (t, s', Propagated exn) => (t, s', Propagated exn)
    end.
Proof.
  revert s. induction m as [a|msg|X c k IH]; intros s; simpl.
  - by destruct (run h s (f a)) as [[t' s''] o].
  - done.
  - destruct (answer h c s) as [s' [x|exn]]; [|done].
    rewrite IH. destruct (run h s' (k x)) as [[t s''] [a|msg|exn]]; [|done..].
    by destruct (run h s'' (f a)) as [[t' s3] o].
Qed.

Lemma trace_of_bind {A B} (h : Host) (s : state h) (m : Prog A) (f : A → Prog B) :
  trace_of h s (bind m f) =
    trace_of h s m ++
    match outcome_of h s m with
    | Returned a => trace_of h (state_after h s m) (f a)
    | _ => []
    end.
Proof.
  unfold trace_of, outcome_of, state_after. rewrite run_bind.
  destruct (run h s m) as [[t s'] [a|msg|exn]]; simpl; [|by rewrite app_nil_r..].
  by destruct (run h s' (f a)) as [[t' s''] o].
Qed.

Lemma outcome_of_bind {A B} (h : Host) (s : state h) (m : Prog A) (f : A → Prog B) :
  outcome_of h s (bind m f) =
    match outcome_of h s m with
    | Returned a => outcome_of h (state_after h s m) (f a)
    | Threw msg => Threw msg
    | Propagated exn => Propagated exn
    end.
Proof.
  unfold outcome_of, state_after. rewrite run_bind.
  destruct (run h s m) as [[t s'] [a|msg|exn]]; simpl; [|done..].
  by destruct (run h s' (f a)) as [[t' s''] o].
Qed.

Lemma state_after_bind {A B} (h : Host) (s : state h) (m : Prog A) (f : A → Prog B) :
  state_after h s (bind m f) =
    match outcome_of h s m with
    | Returned a => state_after h (state_after h s m) (f a)
    | _ => state_after h s m
    end.
Proof.
  unfold outcome_of, state_after. rewrite run_bind.
  destruct (run h s m) as [[t s'] [a|msg|exn]]; simpl; [|done..].
  by destruct (run h s' (f a)) as [[t' s''] o].
Qed.

Lemma trace_of_vis {A X} (h : Host) (s : state h) (c : call X) (k : X → Prog A) :
  trace_of h s (Vis c k) =
    Event c (answer h c s).2 ::
    match (answer h c s).2 with
    | Returns x => trace_of h (answer h c s).1 (k x)
    | Raises _ => []
    end.
Proof.
  unfold trace_of. simpl. destruct (answer h c s) as [s' [x|exn]]; simpl; [|done].
  by destruct (run h s' (k x)) as [[t s''] o].
Qed.

Lemma outcome_of_vis {A X} (h : Host) (s : state h) (c : call X) (k : X → Prog A) :
  outcome_of h s (Vis c k) =
    match (answer h c s).2 with
    | Returns x => outcome_of h (answer h c s).1 (k x)
    | Raises exn => Propagated exn
    end.
Proof.
  unfold outcome_of. simpl. destruct (answer h c s) as [s' [x|exn]]; simpl; [|done].
  by destruct (run h s' (k x)) as [[t s''] o].
Qed.

Lemma state_after_vis {A X} (h : Host) (s : state h) (c : call X) (k : X → Prog A) :
  state_after h s (Vis c k) =
    match (answer h c s).2 with
    | Returns x => state_after h (answer h c s).1 (k x)
    | Raises _ => (answer h c s).1
    end.
Proof.
  unfold state_after. simpl. destruct (answer h c s) as [s' [x|exn]]; simpl; [|done].
  by destruct (run h s' (k x)) as [[t s''] o].
Qed.

(** ** Programs whose every call is of one kind *)

Lemma only_events_trace {A} (P : event → Prop) (p : Prog A) (h : Host) (s : state h) :
  only_events P p → Forall P (trace_of h s p).
Proof.
  intros Hp. revert s. induction Hp as [a|msg|X c k Hc _ IH]; intros s.
  - constructor.
  - constructor.
  - rewrite trace_of_vis. constructor; [done|].
    destruct (answer h c s).2; [apply IH|constructor].
Qed.

Lemma only_events_bind {A B} (P : event → Prop) (m : Prog A) (f : A → Prog B) :
  only_events P m → (∀ a, only_events P (f a)) → only_events P (bind m f).
Proof.
  intros Hm Hf. induction Hm as [a|msg|X c k Hc _ IH]; simpl; [done|constructor|].
  by constructor.
Qed.

Lemma only_events_forEach {A} (P : event → Prop) (l : list A) (f : A → Prog unit) :
  (∀ x, only_events P (f x)) → only_events P (forEach l f).
Proof.
  intros Hf. induction l as [|x l IH]; simpl; [constructor|].
  rewrite bind_unfold. by apply only_events_bind.
Qed.

(** ** Reading traces *)

Lemma probed_app (t1 t2 : trace) (p : string) :
  probed (t1 ++ t2) p =
    match probed t1 p with
    | Some r => Some r
    | None => probed t2 p
    end.
Proof.
  induction t1 as [|e t1 IH]; simpl; [done|].
  destruct (probe_of e) as [[q r]|]; [|done]. by case_decide.
Qed.

Lemma probed_none (t : trace) (p : string) :
  Forall (λ e, ∀ q r, probe_of e = Some (q, r) → q ≠ p) t → probed t p = None.
Proof.
  induction 1 as [|e t He _ IH]; simpl; [done|].
  destruct (probe_of e) as [[q r]|] eqn:E; [|done].
  case_decide; [|done]. by destruct (He q r).
Qed.

Lemma omap_none {A B} (f : A → option B) (l : list A) :
  Forall (λ x, f x = None) l → omap f l = [].
Proof. induction 1 as [|x l Hx _ IH]; simpl; [done|]. by rewrite Hx. Qed.

Lemma existsb_false {A} (f : A → bool) (l : list A) :
  Forall (λ x, f x = false) l → existsb f l = false.
Proof. induction 1 as [|x l Hx _ IH]; simpl; [done|]. by rewrite Hx. Qed.

Lemma raised_app (t1 t2 : trace) : raised (t1 ++ t2) = raised t1 || raised t2.
Proof. apply existsb_app. Qed.

Lemma string_app_assoc (a b c : string) : (a +:+ b) +:+ c = a +:+ b +:+ c.
Proof.
  induction a as [|x a IH]; [done|].
  change (String x ((a +:+ b) +:+ c) = String x (a +:+ b +:+ c)). by rewrite IH.
Qed.

Lemma defaultContextSource_mentions (generatedPhotonPackagePath : string) :
  occurs_in generatedPhotonPackagePath (defaultContextSource generatedPhotonPackagePath).
Proof.
  exists "import { Photon } from '".
  eexists. unfold defaultContextSource, lines. cbn [String.concat].
  rewrite !string_app_assoc. reflexivity.
Qed.

Lemma trace_of_ret {A} (h : Host) (s : state h) (a : A) : trace_of h s (Ret a) = [].
Proof. reflexivity. Qed.

Lemma outcome_of_ret {A} (h : Host) (s : state h) (a : A) :
  outcome_of h s (Ret a) = Returned a.
Proof. reflexivity. Qed.

Lemma state_after_ret {A} (h : Host) (s : state h) (a : A) : state_after h s (Ret a) = s.
Proof. reflexivity. Qed.

Lemma trace_of_throw {A} (h : Host) (s : state h) (msg : string) :
  trace_of h s (Throw msg : Prog A) = [].
Proof. reflexivity. Qed.

Lemma outcome_of_throw {A} (h : Host) (s : state h) (msg : string) :
  outcome_of h s (Throw msg : Prog A) = Threw msg.
Proof. reflexivity. Qed.

Lemma state_after_throw {A} (h : Host) (s : state h) (msg : string) :
  state_after h s (Throw msg : Prog A) = s.
Proof. reflexivity. Qed.

Lemma unless_dir {A} (r : exists_result) (a b : A) :
  r ≠ ExDir → match r with ExDir => a | _ => b end = b.
Proof. by destruct r. Qed.

Lemma unless_file {A} (r : exists_result) (a b : A) :
  r ≠ ExFile → match r with ExFile => a | _ => b end = b.
Proof. by destruct r. Qed.

Lemma dir_or_not (r : exists_result) : r = ExDir ∨ r ≠ ExDir.
Proof. destruct r; auto. Qed.

Lemma file_or_not (r : exists_result) : r = ExFile ∨ r ≠ ExFile.
Proof. destruct r; auto. Qed.

(** ** Tactics for stepping through a run *)

Ltac prog_unfold :=
  repeat (progress (unfold mbind, Prog_bind, perform; cbn [bind])).

Ltac run_simpl :=
  repeat (progress (
    rewrite ?trace_of_vis, ?outcome_of_vis, ?state_after_vis,
      ?trace_of_ret, ?outcome_of_ret, ?state_after_ret,
      ?trace_of_throw, ?outcome_of_throw, ?state_after_throw in *;
    cbn [fst snd] in *)).

(** Case analysis on the reply to the next call of a run. *)
Ltac next_call :=
  run_simpl;
  match goal with
  | |- context [answer ?h ?c ?s] =>
      is_var s; destruct (answer h c s) as [? [?|?]]
  | _ : context [answer ?h ?c ?s] |- _ =>
      is_var s; destruct (answer h c s) as [? [?|?]]
  end;
  run_simpl.

(** Case analysis on the answer of [fs.exists] that the run branches on. *)
Ltac split_reply cases unless :=
  match goal with
  | |- context [match ?r with ExFalse => _ | ExDir => _ | ExFile => _ | ExOther => _ end] =>
      is_var r;
      let Hne := fresh "Hne" in
      destruct (cases r) as [->|Hne];
      [|rewrite ?(unless _ r) in * by done]
  | _ : context [match ?r with ExFalse => _ | ExDir => _ | ExFile => _ | ExOther => _ end] |- _ =>
      is_var r;
      let Hne := fresh "Hne" in
      destruct (cases r) as [->|Hne];
      [|rewrite ?(unless _ r) in * by done]
  end.

(** Computing what a trace with known events shows. *)
Ltac trace_simpl :=
  unfold directory_branch, root_file_branch, server_file_branch,
    requires, finds, writes, listens, logs, raised, listening in *;
  repeat (progress (
    cbn [probed probe_of find_of require_of write_of raised_of listen_of log_of
         bound_of omap list_omap existsb ev_call ev_reply orb] in *;
    rewrite ?decide_True in * by done;
    rewrite ?decide_False in * by congruence)).

(** Case analysis on every reply that the schema loader gets, for a goal
    that mentions the run once. *)
Ltac loader_cases fs_path :=
  unfold loadSchemaModules; prog_unfold;
  next_call;
  [ next_call;
    [ split_reply dir_or_not (@unless_dir);
      [ next_call
      | next_call;
        [ split_reply file_or_not (@unless_file);
          [ next_call; [next_call|]
          | next_call;
            [ split_reply file_or_not (@unless_file);
              [ next_call; [next_call|] | ]
            | ] ]
        | ] ]
    | ]
  | ].

(** Membership in a list of at most one element. *)
Ltac members :=
  repeat match goal with
         | H : _ ∈ [] |- _ => by apply elem_of_nil in H
         | H : _ ∈ [_] |- _ => apply list_elem_of_singleton in H; subst
         end;
  done.

(** ** The schema loader *)

Section Loading.
Context (fs_path : string → string) (path_join : string → string → string).

Lemma conventional_paths_apart :
  NoDup (fs_path <$> conventional_paths) →
  fs_path "server/schema" ≠ fs_path "schema.ts" ∧
  fs_path "server/schema" ≠ fs_path "server/schema.ts" ∧
  fs_path "server/schema" ≠ fs_path "server/context.ts" ∧
  fs_path "schema.ts" ≠ fs_path "server/schema.ts" ∧
  fs_path "schema.ts" ≠ fs_path "server/context.ts" ∧
  fs_path "server/schema.ts" ≠ fs_path "server/context.ts".
Proof.
  unfold conventional_paths. simpl. rewrite !NoDup_cons.
  intros (H1 & H2 & H3 & _). set_solver.
Qed.

Lemma importSchemaModule_unfold (m : string) :
  importSchemaModule fs_path m =
    Vis (DebugLog "importing %s" [m])
      (λ _, Vis (RequireModule (fs_path m)) (λ _, Ret tt)).
Proof. reflexivity. Qed.

Lemma createApp_unfold :
  createApp fs_path path_join =
    bind (loadSchemaModules fs_path) (λ _, assembleApp fs_path path_join).
Proof. reflexivity. Qed.

(** What importing the listed modules does: the modules are required in
    the order of the list, up to the first call that raises. *)
Lemma import_run (found : list string) (h : Host) (s : state h) :
  let t := trace_of h s (forEach found (importSchemaModule fs_path)) in
  let o := outcome_of h s (forEach found (importSchemaModule fs_path)) in
  requires t `prefix_of` (fs_path <$> found) ∧
  (raised t = false → requires t = fs_path <$> found ∧ o = Returned tt) ∧
  (∀ msg, o ≠ Threw msg) ∧
  (o = Returned tt → raised t = false).
Proof.
  revert s. induction found as [|m found IH]; intros s.
  { repeat split; try done. }
  cbn [forEach]. rewrite importSchemaModule_unfold. prog_unfold.
  next_call; [|split_and!; try done; apply prefix_nil].
  next_call; [|split_and!; try done; apply prefix_cons, prefix_nil].
  match goal with |- context [trace_of h ?s' (forEach _ _)] => specialize (IH s') end.
  destruct IH as (IH1 & IH2 & IH3 & IH4).
  split_and!; try done.
  - by apply prefix_cons.
  - intros H. destruct (IH2 H) as [IH5 IH6]. split; [|done].
    unfold requires in *. cbn. by f_equal.
Qed.

Lemma import_quiet (found : list string) :
  only_events (λ e, probe_of e = None ∧ find_of e = None ∧ write_of e = None ∧
                    is_server_construction e = false ∧ is_schema_build e = false ∧
                    listen_of e = None ∧ log_of e = None ∧ probe_path e = None)
    (forEach found (importSchemaModule fs_path)).
Proof.
  apply only_events_forEach. intros m. rewrite importSchemaModule_unfold.
  repeat (constructor; intros; try done).
Qed.

Lemma import_no_probe (found : list string) (h : Host) (s : state h) (p : string) :
  probed (trace_of h s (forEach found (importSchemaModule fs_path))) p = None.
Proof.
  apply probed_none.
  eapply Forall_impl; [apply only_events_trace, import_quiet|].
  intros e (He & _) q r. by rewrite He.
Qed.

Lemma import_no_find (found : list string) (h : Host) (s : state h) :
  finds (trace_of h s (forEach found (importSchemaModule fs_path))) = [].
Proof.
  apply omap_none.
  eapply Forall_impl; [apply only_events_trace, import_quiet|].
  by intros e (_ & He & _).
Qed.

(** C1.  The schema loader follows a fixed priority order in which the
    first match wins.  If [fs.exists] answers ['dir'] for [server/schema],
    [fs.find] is asked once, for the files matching [*.ts] under it,
    recursively, and every listed file is required, in the order listed;
    else if it answers ['file'] for
    [schema.ts] that file is required; else if it answers ['file'] for
    [server/schema.ts] that file is required.  A later probe is made only
    when the earlier ones did not match, so at most one of the three
    branches is entered in a call of [createApp], whose trace begins with
    the trace of the loader. *)
Theorem schema_loading_first_match_wins (h : Host) (s : state h) :
  NoDup (fs_path <$> conventional_paths) →
  let t := trace_of h s (loadSchemaModules fs_path) in
  t `prefix_of` trace_of h s (createApp fs_path path_join) ∧
  (directory_branch fs_path t →
     ∃ r, finds t = [(fs_path "server/schema", find_schema_options, r)] ∧
       ∀ found, r = Returns found →
         requires t `prefix_of` (fs_path <$> found) ∧
         (raised t = false → requires t = fs_path <$> found)) ∧
  (root_file_branch fs_path t →
     finds t = [] ∧
     requires t `prefix_of` [fs_path "schema.ts"] ∧
     (raised t = false → requires t = [fs_path "schema.ts"])) ∧
  (server_file_branch fs_path t →
     finds t = [] ∧
     requires t `prefix_of` [fs_path "server/schema.ts"] ∧
     (raised t = false → requires t = [fs_path "server/schema.ts"])) ∧
  (∀ r, probed t (fs_path "server/schema") = Some (Returns r) → r ≠ ExDir →
     probed t (fs_path "schema.ts") ≠ None) ∧
  (∀ r, probed t (fs_path "schema.ts") = Some (Returns r) → r ≠ ExFile →
     probed t (fs_path "server/schema.ts") ≠ None) ∧
  (directory_branch fs_path t →
     probed t (fs_path "schema.ts") = None ∧
     probed t (fs_path "server/schema.ts") = None) ∧
  (root_file_branch fs_path t → probed t (fs_path "server/schema.ts") = None) ∧
  ¬ (directory_branch fs_path t ∧ root_file_branch fs_path t) ∧
  ¬ (directory_branch fs_path t ∧ server_file_branch fs_path t) ∧
  ¬ (root_file_branch fs_path t ∧ server_file_branch fs_path t).
Proof.
  intros Hpaths t.
  destruct (conventional_paths_apart Hpaths) as (? & ? & ? & ? & ? & ?).
  split.
  { rewrite createApp_unfold, trace_of_bind. by eexists. }
  assert (Et : t = trace_of h s (loadSchemaModules fs_path)) by done.
  clearbody t. revert Et.
  loader_cases fs_path; intros ->; trace_simpl.
  all: rewrite ?import_no_probe, ?import_no_find.
  all: try match goal with
       | |- context [trace_of ?h0 ?s0 (forEach ?l _)] =>
           destruct (import_run l h0 s0) as (? & ? & _ & _)
       end.
  all: split_and!; intros; destruct_and?; simplify_eq; try done.
  all: try apply prefix_nil.
  all: try by (intros [??]; simplify_eq).
  all: try by (split_and!; [done|apply prefix_nil|done]).
  all: try by (split_and!; [done|apply prefix_cons, prefix_nil|done]).
  all: try by (eexists; split; [done|]; intros; simplify_eq).
  eexists; split; [done|]. intros ? [= <-]. split; [done|].
  intros Hr. match goal with H : _ → _ ∧ _ |- _ => by destruct (H Hr) end.
Qed.

End Loading.

(** ** The context module *)

Lemma only_events_impl {A} (P Q : event → Prop) (p : Prog A) :
  (∀ e, P e → Q e) → only_events P p → only_events Q p.
Proof. intros HPQ. induction 1; constructor; auto. Qed.

Section Assembling.
Context (fs_path : string → string) (path_join : string → string → string).

Lemma loader_quiet :
  only_events (λ e, write_of e = None ∧ is_server_construction e = false ∧
                    is_schema_build e = false ∧ listen_of e = None ∧ log_of e = None ∧
                    ∀ q, probe_path e = Some q →
                      q ∈ [fs_path "server/schema"; fs_path "schema.ts";
                           fs_path "server/schema.ts"])
    (loadSchemaModules fs_path).
Proof.
  unfold loadSchemaModules. prog_unfold.
  constructor; [by intros|intros _].
  constructor; [intros; split_and!; try done; intros q [= <-]; rewrite !elem_of_cons; auto|intros dir].
  assert (only_events (λ e, write_of e = None ∧ is_server_construction e = false ∧
                    is_schema_build e = false ∧ listen_of e = None ∧ log_of e = None ∧
                    ∀ q, probe_path e = Some q →
                      q ∈ [fs_path "server/schema"; fs_path "schema.ts";
                           fs_path "server/schema.ts"])
    (Vis (FsFind (fs_path "server/schema") find_schema_options)
       (λ found, forEach found (importSchemaModule fs_path)))) as Hdir.
  { constructor; [by intros|intros found].
    eapply only_events_impl; [|apply import_quiet].
    intros e (? & ? & ? & ? & ? & ? & ? & Hp). split_and!; try done.
    intros q. by rewrite Hp. }
  destruct dir; try done.
  all: constructor; [intros; split_and!; try done; intros q [= <-]; rewrite !elem_of_cons; auto|intros root].
  all: destruct root.
  all: repeat (constructor; [intros; split_and!; try done; intros q [= <-]; rewrite !elem_of_cons; auto|intros ?]).
  all: try constructor.
  all: match goal with x : exists_result |- _ => destruct x end.
  all: repeat (constructor; [intros; split_and!; try done; intros q [= <-]; rewrite !elem_of_cons; auto|intros ?]).
  all: constructor.
Qed.

Lemma loader_no_context_probe (h : Host) (s : state h) :
  NoDup (fs_path <$> conventional_paths) →
  probed (trace_of h s (loadSchemaModules fs_path)) (fs_path "server/context.ts") = None.
Proof.
  clear path_join. intros Hpaths.
  destruct (conventional_paths_apart fs_path Hpaths) as (? & ? & ? & ? & ? & ?).
  apply probed_none.
  eapply Forall_impl; [apply only_events_trace, loader_quiet|].
  intros [X c r] (_ & _ & _ & _ & _ & Hq) q r' Hp.
  destruct c; try done. unfold probe_of in Hp. cbn in Hp. simplify_eq.
  specialize (Hq _ eq_refl). rewrite !elem_of_cons, elem_of_nil in Hq.
  intuition congruence.
Qed.

Lemma loader_never_throws (h : Host) (s : state h) (msg : string) :
  outcome_of h s (loadSchemaModules fs_path) ≠ Threw msg.
Proof.
  loader_cases fs_path; try done.
  match goal with
  | |- context [outcome_of ?h0 ?s0 (forEach ?l _)] =>
      destruct (import_run fs_path l h0 s0) as (_ & _ & Hne & _)
  end.
  apply Hne.
Qed.


(** What the second part of [createApp] does, by the answer of the probe of
    the conventional context path. *)
Lemma assemble_run (h : Host) (s : state h) :
  let ctx := fs_path "server/context.ts" in
  let cache := fs_path ".pumpkins/context.ts" in
  let photon := fs_path "node_modules/@generated/photon" in
  let t := trace_of h s (assembleApp fs_path path_join) in
  let o := outcome_of h s (assembleApp fs_path path_join) in
  (probed t ctx = Some (Returns ExDir) →
     o = Threw context_folder_error ∧ writes t = [] ∧
     ∃ pre, t = pre ++ [Event (FsExists ctx) (Returns ExDir)]) ∧
  (probed t ctx = Some (Returns ExFile) →
     writes t = [] ∧ requires t = [ctx] ∧
     (∃ pre rq, t = pre ++ [Event (FsExists ctx) (Returns ExFile);
                            Event (RequireModule ctx) rq]) ∧
     ∀ app, o = Returned app →
       ∃ gen exit exports,
         startServer app = startServerBody fs_path path_join gen exit photon ctx exports) ∧
  (∀ r, probed t ctx = Some (Returns r) → r ≠ ExDir → r ≠ ExFile →
     writes t = [(cache, defaultContextSource photon)] ∧
     ∃ pre post rw,
       t = pre ++ Event (FsExists ctx) (Returns r) ::
                  Event (FsWrite cache (defaultContextSource photon)) rw :: post) ∧
  (∀ msg, o = Threw msg →
     msg = context_folder_error ∧ probed t ctx = Some (Returns ExDir)) ∧
  (∀ app, o = Returned app →
     raised t = false ∧
     ∃ gen exit cpath exports,
       startServer app = startServerBody fs_path path_join gen exit photon cpath exports) ∧
  (raised t = false → probed t ctx ≠ Some (Returns ExDir) → ∃ app, o = Returned app) ∧
  length (requires t) ≤ 1.
Proof.
  intros ctx cache photon t o.
  assert (Et : t = trace_of h s (assembleApp fs_path path_join)) by done.
  assert (Eo : o = outcome_of h s (assembleApp fs_path path_join)) by done.
  clearbody t o. revert Et Eo.
  unfold assembleApp, resolveContextModule. prog_unfold.
  fold ctx cache photon.
  next_call; [|intros -> ->; trace_simpl; split_and!; intros; simplify_eq; try done; simpl; lia].
  next_call; [|intros -> ->; trace_simpl; split_and!; intros; simplify_eq; try done; simpl; lia].
  match goal with x : exists_result |- _ => destruct x end.
  all: prog_unfold; repeat next_call; run_simpl.
  all: intros -> ->; trace_simpl.
  all: repeat (split_and!; intros; simplify_eq; try done).
  all: try (simpl; lia).
  all: try by eexists [_].
  all: try by eexists [_], _.
  all: try by eexists [_], _, _.
  all: try by eexists _, _, _.
  all: try by (split; [done|]; eexists _, _, _, _).
  all: try by (split; [done|]; eexists [_], _, _).
  all: try by eexists _, _, _, _.
  all: by eexists.
Qed.

Lemma assemble_quiet :
  only_events (λ e, is_server_construction e = false ∧ is_schema_build e = false ∧
                    find_of e = None ∧ listen_of e = None ∧ log_of e = None)
    (assembleApp fs_path path_join).
Proof.
  unfold assembleApp, resolveContextModule. prog_unfold.
  constructor; [done|intros env].
  constructor; [done|intros r].
  destruct r; prog_unfold; repeat (constructor; [done|intros ?]); constructor.
Qed.

Lemma loader_no_write (h : Host) (s : state h) :
  writes (trace_of h s (loadSchemaModules fs_path)) = [].
Proof.
  apply omap_none.
  eapply Forall_impl; [apply only_events_trace, loader_quiet|].
  by intros e (? & _).
Qed.

Lemma createApp_no_server_construction (h : Host) (s : state h) :
  Forall (λ e, is_server_construction e = false ∧ is_schema_build e = false ∧
               listen_of e = None ∧ log_of e = None)
    (trace_of h s (createApp fs_path path_join)).
Proof.
  apply only_events_trace. rewrite createApp_unfold. apply only_events_bind.
  - eapply only_events_impl; [|apply loader_quiet].
    by intros e (_ & ? & ? & ? & ? & _).
  - intros _. eapply only_events_impl; [|apply assemble_quiet].
    by intros e (? & ? & _ & ? & ?).
Qed.

(** C2.  When [fs.exists] answers ['dir'] for [server/context.ts],
    [createApp] throws the error "context.ts must be a file, but it was a
    folder!" right after that probe; [createApp] throws an error of its own
    in no other case; and no run of [createApp] makes a call that constructs
    the server (the schema build among them), which only [startServer]
    does. *)
Theorem context_folder_is_configuration_error (h : Host) (s : state h) :
  NoDup (fs_path <$> conventional_paths) →
  let t := trace_of h s (createApp fs_path path_join) in
  let o := outcome_of h s (createApp fs_path path_join) in
  (probed t (fs_path "server/context.ts") = Some (Returns ExDir) →
     o = Threw context_folder_error ∧
     ∃ pre, t = pre ++ [Event (FsExists (fs_path "server/context.ts")) (Returns ExDir)]) ∧
  (∀ msg, o = Threw msg →
     msg = context_folder_error ∧
     probed t (fs_path "server/context.ts") = Some (Returns ExDir)) ∧
  Forall (λ e, is_server_construction e = false) t.
Proof.
  intros Hpaths t o.
  pose proof (loader_no_context_probe h s Hpaths) as Hnp.
  pose proof (loader_never_throws h s) as Hnt.
  split_and!; [| |eapply Forall_impl; [apply createApp_no_server_construction|by intros e (? & _)]].
  all: subst t o; rewrite createApp_unfold, ?trace_of_bind, ?outcome_of_bind.
  all: rewrite ?probed_app, ?Hnp.
  all: destruct (outcome_of h s (loadSchemaModules fs_path)) as [[]|msg'|exn] eqn:Eo;
    try done; try (by destruct (Hnt msg')).
  all: destruct (assemble_run h (state_after h s (loadSchemaModules fs_path)))
         as (A1 & _ & _ & A4 & _).
  - intros Hp. destruct (A1 Hp) as (-> & _ & pre & ->). split; [done|].
    eexists (_ ++ pre). by rewrite app_assoc.
  - apply A4.
Qed.

(** C4.  In every run of [createApp] where [fs.exists] answers neither
    ['file'] nor ['dir'] for [server/context.ts], the call that follows the
    probe is [fs.write] of the default context module to
    [.pumpkins/context.ts]; it is the only write of the run, and its content
    contains the path of the generated Photon package.  This holds from any
    state of the host, so no earlier call of [createApp] and no file already
    in the cache spares the write. *)
Theorem default_context_always_written (h : Host) (s : state h) (r : exists_result) :
  NoDup (fs_path <$> conventional_paths) →
  let t := trace_of h s (createApp fs_path path_join) in
  let photon := fs_path "node_modules/@generated/photon" in
  probed t (fs_path "server/context.ts") = Some (Returns r) →
  r ≠ ExFile → r ≠ ExDir →
  writes t = [(fs_path ".pumpkins/context.ts", defaultContextSource photon)] ∧
  (∃ pre post rw,
     t = pre ++
         Event (FsExists (fs_path "server/context.ts")) (Returns r) ::
         Event (FsWrite (fs_path ".pumpkins/context.ts") (defaultContextSource photon)) rw ::
         post) ∧
  occurs_in photon (defaultContextSource photon).
Proof.
  intros Hpaths t photon.
  pose proof (loader_no_context_probe h s Hpaths) as Hnp.
  subst t. rewrite createApp_unfold, trace_of_bind, probed_app, Hnp.
  unfold writes. rewrite omap_app. fold (writes (trace_of h s (loadSchemaModules fs_path))).
  rewrite loader_no_write.
  destruct (outcome_of h s (loadSchemaModules fs_path)) as [[]|msg'|exn]; try done.
  destruct (assemble_run h (state_after h s (loadSchemaModules fs_path)))
    as (_ & _ & A3 & _).
  intros Hp Hfile Hdir. destruct (A3 r Hp Hdir Hfile) as (Hw & pre & post & rw & Ht).
  split_and!; [exact Hw| |apply defaultContextSource_mentions].
  rewrite Ht. eexists (_ ++ pre), post, rw. by rewrite <-app_assoc.
Qed.

(** C5.  In every run of [createApp] where [fs.exists] answers ['file'] for
    [server/context.ts], that path is the context module: it is what
    [require] is given right after the probe and what [startServer] closes
    over, and the run writes no file. *)
Theorem user_context_used_directly (h : Host) (s : state h) :
  NoDup (fs_path <$> conventional_paths) →
  let t := trace_of h s (createApp fs_path path_join) in
  let o := outcome_of h s (createApp fs_path path_join) in
  let ctx := fs_path "server/context.ts" in
  probed t ctx = Some (Returns ExFile) →
  writes t = [] ∧
  (∃ pre rq, t = pre ++ [Event (FsExists ctx) (Returns ExFile);
                         Event (RequireModule ctx) rq]) ∧
  ∀ app, o = Returned app →
    ∃ gen exit exports,
      startServer app =
        startServerBody fs_path path_join gen exit
          (fs_path "node_modules/@generated/photon") ctx exports.
Proof.
  intros Hpaths t o ctx.
  pose proof (loader_no_context_probe h s Hpaths) as Hnp.
  subst t o ctx. rewrite createApp_unfold, trace_of_bind, outcome_of_bind, probed_app, Hnp.
  unfold writes. rewrite omap_app. fold (writes (trace_of h s (loadSchemaModules fs_path))).
  rewrite loader_no_write.
  destruct (outcome_of h s (loadSchemaModules fs_path)) as [[]|msg'|exn]; try done.
  destruct (assemble_run h (state_after h s (loadSchemaModules fs_path)))
    as (_ & A2 & _).
  intros Hp. destruct (A2 Hp) as (Hw & _ & (pre & rq & Ht) & Happ).
  split_and!; [exact Hw| |exact Happ].
  rewrite Ht. eexists (_ ++ pre), rq. by rewrite <-app_assoc.
Qed.

End Assembling.

(** ** Projects without a schema, and a file in place of the schema directory *)

Section NoSchema.
Context (fs_path : string → string) (path_join : string → string → string).

Lemma assemble_probes_context :
  only_events (λ e, ∀ q, probe_path e = Some q → q = fs_path "server/context.ts")
    (assembleApp fs_path path_join).
Proof.
  unfold assembleApp, resolveContextModule. prog_unfold.
  constructor; [done|intros env].
  constructor; [by intros r q [= <-]|intros r].
  destruct r; prog_unfold; repeat (constructor; [done|intros ?]); constructor.
Qed.

Lemma probe_of_path (e : event) (q : string) (r : reply exists_result) :
  probe_of e = Some (q, r) → probe_path e = Some q.
Proof.
  destruct e as [X c r']. unfold probe_of, probe_path. destruct c; try done.
  cbn. by intros [= -> _].
Qed.

Lemma assemble_no_other_probe (h : Host) (s : state h) (p : string) :
  p ≠ fs_path "server/context.ts" →
  probed (trace_of h s (assembleApp fs_path path_join)) p = None.
Proof.
  intros Hp. apply probed_none.
  eapply Forall_impl; [apply only_events_trace, assemble_probes_context|].
  intros e He q r Hq%probe_of_path. by rewrite (He q Hq).
Qed.

Lemma createApp_probed_schema (h : Host) (s : state h) (p : string) :
  p ≠ fs_path "server/context.ts" →
  probed (trace_of h s (createApp fs_path path_join)) p =
  probed (trace_of h s (loadSchemaModules fs_path)) p.
Proof.
  intros Hp. rewrite createApp_unfold, trace_of_bind, probed_app.
  destruct (probed (trace_of h s (loadSchemaModules fs_path)) p); [done|].
  destruct (outcome_of h s (loadSchemaModules fs_path)); [|done..].
  by apply assemble_no_other_probe.
Qed.

(** What the loader does when none of its three probes matches. *)
Lemma loader_without_schema (h : Host) (s : state h) (r1 r2 r3 : exists_result) :
  NoDup (fs_path <$> conventional_paths) →
  let t := trace_of h s (loadSchemaModules fs_path) in
  probed t (fs_path "server/schema") = Some (Returns r1) → r1 ≠ ExDir →
  probed t (fs_path "schema.ts") = Some (Returns r2) → r2 ≠ ExFile →
  probed t (fs_path "server/schema.ts") = Some (Returns r3) → r3 ≠ ExFile →
  t = [Event (DebugLog "finding schema modules ..." []) (Returns tt);
       Event (FsExists (fs_path "server/schema")) (Returns r1);
       Event (FsExists (fs_path "schema.ts")) (Returns r2);
       Event (FsExists (fs_path "server/schema.ts")) (Returns r3)] ∧
  outcome_of h s (loadSchemaModules fs_path) = Returned tt.
Proof.
  intros Hpaths t.
  destruct (conventional_paths_apart fs_path Hpaths) as (? & ? & ? & ? & ? & ?).
  assert (Et : t = trace_of h s (loadSchemaModules fs_path)) by done.
  clearbody t. revert Et.
  generalize (eq_refl (outcome_of h s (loadSchemaModules fs_path))).
  generalize (outcome_of h s (loadSchemaModules fs_path)) at 1 3 as o.
  intros o Eo Et. revert Eo Et.
  loader_cases fs_path; intros -> ->; trace_simpl.
  all: rewrite ?import_no_probe.
  all: intros; simplify_eq; try done.
  by match goal with u : () |- _ => destruct u end.
Qed.


(** C7.  When [fs.exists] answers for [server/schema] something other than
    ['dir'] and for [schema.ts] and [server/schema.ts] something other than
    ['file'], the schema loader makes its debug call and the three probes
    and nothing else: it requires no module, raises and throws nothing and
    returns, so the schema registry holds no definition.  The whole run of
    [createApp] requires at most the context module, throws only for a
    context path that is a folder, and returns the application whenever no
    call raises and the context path is not a folder. *)
Theorem no_schema_is_not_an_error
    (h : Host) (s : state h) (definitions : string → list string)
    (r1 r2 r3 : exists_result) :
  NoDup (fs_path <$> conventional_paths) →
  let t := trace_of h s (createApp fs_path path_join) in
  let o := outcome_of h s (createApp fs_path path_join) in
  let loading := trace_of h s (loadSchemaModules fs_path) in
  probed t (fs_path "server/schema") = Some (Returns r1) → r1 ≠ ExDir →
  probed t (fs_path "schema.ts") = Some (Returns r2) → r2 ≠ ExFile →
  probed t (fs_path "server/schema.ts") = Some (Returns r3) → r3 ≠ ExFile →
  loading = [Event (DebugLog "finding schema modules ..." []) (Returns tt);
             Event (FsExists (fs_path "server/schema")) (Returns r1);
             Event (FsExists (fs_path "schema.ts")) (Returns r2);
             Event (FsExists (fs_path "server/schema.ts")) (Returns r3)] ∧
  outcome_of h s (loadSchemaModules fs_path) = Returned tt ∧
  Forall (λ e, is_debug_or_probe e = true) loading ∧
  requires loading = [] ∧
  raised loading = false ∧
  schema_registry definitions loading = [] ∧
  length (requires t) ≤ 1 ∧
  (∀ msg, o = Threw msg →
     probed t (fs_path "server/context.ts") = Some (Returns ExDir)) ∧
  (raised t = false →
   probed t (fs_path "server/context.ts") ≠ Some (Returns ExDir) →
   ∃ app, o = Returned app).
Proof.
  intros Hpaths t o loading.
  destruct (conventional_paths_apart fs_path Hpaths) as (_ & _ & ? & _ & ? & ?).
  subst t. rewrite !createApp_probed_schema by done.
  intros Hp1 Hr1 Hp2 Hr2 Hp3 Hr3.
  destruct (loader_without_schema h s r1 r2 r3 Hpaths Hp1 Hr1 Hp2 Hr2 Hp3 Hr3) as [Ht Ho].
  pose proof (loader_no_context_probe fs_path h s Hpaths) as Hnp.
  subst o loading.
  rewrite createApp_unfold, trace_of_bind, outcome_of_bind, Ho, Ht.
  destruct (assemble_run fs_path path_join h (state_after h s (loadSchemaModules fs_path)))
    as (_ & _ & _ & A4 & _ & A6 & A7).
  rewrite Ht in Hnp.
  split_and!.
  - done.
  - done.
  - repeat constructor.
  - done.
  - done.
  - done.
  - unfold requires. rewrite omap_app. exact A7.
  - intros msg Hm. rewrite probed_app, Hnp. by destruct (A4 msg Hm).
  - rewrite raised_app, probed_app, Hnp. exact A6.
Qed.


Lemma as_absent_reply_other (p : string) {X} (c : call X) (r : reply X) :
  probe_path (Event c r) ≠ Some p → as_absent_reply p c r = r.
Proof.
  destruct c; try done. unfold probe_path. cbn. intros Hp.
  rewrite decide_False; [done|congruence].
Qed.

Lemma as_absent_event_other (p : string) (e : event) :
  probe_path e ≠ Some p → as_absent_event p e = e.
Proof.
  destruct e as [X c r]. intros Hp. unfold as_absent_event. cbn.
  by rewrite as_absent_reply_other.
Qed.

Lemma as_absent_trace_other (p : string) (t : trace) :
  Forall (λ e, probe_path e ≠ Some p) t → as_absent_event p <$> t = t.
Proof.
  induction 1 as [|e t He _ IH]; [done|].
  cbn. by rewrite as_absent_event_other, IH.
Qed.

(** A program that does not probe [p] runs alike on both hosts. *)
Lemma as_absent_host_other {A} (p : string) (prog : Prog A) (h : Host) (s : state h) :
  only_events (λ e, probe_path e ≠ Some p) prog →
  run (as_absent_host p h) s prog = run h s prog.
Proof.
  intros Hprog. revert s. induction Hprog as [a|msg|X c k Hc _ IH]; intros s; [done..|].
  cbn. destruct (answer h c s) as [s' r]. cbn.
  rewrite (as_absent_reply_other p c r) by apply Hc.
  destruct r; [|done]. by rewrite IH.
Qed.

Lemma run_projections {A} (h : Host) (s : state h) (p : Prog A) :
  run h s p = (trace_of h s p, state_after h s p, outcome_of h s p).
Proof. unfold trace_of, state_after, outcome_of. by destruct (run h s p) as [[??]?]. Qed.

(** After the probe of the schema directory, the loader does not probe it
    again. *)
Lemma loader_rest_other_probes (dir : exists_result) :
  NoDup (fs_path <$> conventional_paths) →
  only_events (λ e, probe_path e ≠ Some (fs_path "server/schema"))
    (match dir with
     | ExDir =>
         Vis (FsFind (fs_path "server/schema") find_schema_options)
           (λ found, forEach found (importSchemaModule fs_path))
     | _ =>
         Vis (FsExists (fs_path "schema.ts")) (λ root,
           match root with
           | ExFile =>
               Vis (DebugLog "importing %s" ["schema.ts"]) (λ _,
               Vis (RequireModule (fs_path "schema.ts")) (λ _, Ret tt))
           | _ =>
               Vis (FsExists (fs_path "server/schema.ts")) (λ server,
                 match server with
                 | ExFile =>
                     Vis (DebugLog "importing %s" ["server/schema.ts"]) (λ _,
                     Vis (RequireModule (fs_path "server/schema.ts")) (λ _, Ret tt))
                 | _ => Ret tt
                 end)
           end)
     end).
Proof.
  intros Hpaths.
  destruct (conventional_paths_apart fs_path Hpaths) as (? & ? & _).
  assert (only_events (λ e, probe_path e ≠ Some (fs_path "server/schema"))
            (Vis (FsFind (fs_path "server/schema") find_schema_options)
               (λ found, forEach found (importSchemaModule fs_path)))) as Hdir.
  { constructor; [done|intros found].
    eapply only_events_impl; [|apply import_quiet].
    intros e (_ & _ & _ & _ & _ & _ & _ & Hp). by rewrite Hp. }
  destruct dir; try done.
  all: constructor; [intros r; cbn; congruence|intros root].
  all: destruct root.
  all: repeat (constructor; [intros r; cbn; congruence|intros ?]).
  all: try constructor.
  all: match goal with x : exists_result |- _ => destruct x end.
  all: repeat (constructor; [intros r; cbn; congruence|intros ?]).
  all: constructor.
Qed.

(** The single-file checks ask for no directory listing. *)
Lemma single_file_checks_no_find :
  only_events (λ e, find_of e = None)
    (Vis (FsExists (fs_path "schema.ts")) (λ root,
       match root with
       | ExFile =>
           Vis (DebugLog "importing %s" ["schema.ts"]) (λ _,
           Vis (RequireModule (fs_path "schema.ts")) (λ _, Ret tt))
       | _ =>
           Vis (FsExists (fs_path "server/schema.ts")) (λ server,
             match server with
             | ExFile =>
                 Vis (DebugLog "importing %s" ["server/schema.ts"]) (λ _,
                 Vis (RequireModule (fs_path "server/schema.ts")) (λ _, Ret tt))
             | _ => Ret tt
             end)
       end)).
Proof.
  constructor; [done|intros root].
  destruct root.
  all: repeat (constructor; [done|intros ?]).
  all: try constructor.
  all: match goal with x : exists_result |- _ => destruct x end.
  all: repeat (constructor; [done|intros ?]).
  all: constructor.
Qed.

(** The run of the loader on the host that reports the schema path as
    absent when it is a file. *)
Lemma loader_as_absent (h : Host) (s : state h) :
  NoDup (fs_path <$> conventional_paths) →
  let dir := fs_path "server/schema" in
  run (as_absent_host dir h) s (loadSchemaModules fs_path) =
    (as_absent_event dir <$> trace_of h s (loadSchemaModules fs_path),
     state_after h s (loadSchemaModules fs_path),
     outcome_of h s (loadSchemaModules fs_path)).
Proof.
  intros Hpaths dir. subst dir.
  pose proof (λ r, loader_rest_other_probes r Hpaths) as Hrest.
  unfold trace_of, state_after, outcome_of.
  unfold loadSchemaModules. prog_unfold. cbn [run answer as_absent_host].
  destruct (answer h (DebugLog "finding schema modules ..." []) s) as [s0 [u|exn]];
    cbn; [|done].
  destruct (answer h (FsExists (fs_path "server/schema")) s0) as [s1 [r|exn]];
    cbn.
  2:{ unfold as_absent_event. cbn. by rewrite !decide_True. }
  rewrite decide_True by done.
  specialize (Hrest r).
  pose proof (only_events_trace _ _ h s1 Hrest) as Hsame%as_absent_trace_other.
  unfold trace_of in Hsame.
  destruct r; cbn -[run] in *.
  all: rewrite (as_absent_host_other _ _ h s1 Hrest).
  all: match goal with
       | |- context [run ?h0 ?s0 ?p] => destruct (run h0 s0 p) as [[t' s'] o']
       end.
  all: cbn in *; unfold as_absent_event at 1 2; cbn.
  all: rewrite ?decide_True by done.
  all: do 4 f_equal; symmetry; exact Hsame.
Qed.

(** C9.  When [fs.exists] answers ['file'] for [server/schema], the loader
    asks for no directory listing and throws no error: it goes on to probe
    [schema.ts].  Its run is the run it has on a host that answers [false]
    for that path instead: the same calls with the same other replies, the
    same final state and the same outcome. *)
Theorem schema_path_as_file_falls_through (h : Host) (s : state h) :
  NoDup (fs_path <$> conventional_paths) →
  let dir := fs_path "server/schema" in
  let t := trace_of h s (loadSchemaModules fs_path) in
  probed t dir = Some (Returns ExFile) →
  finds t = [] ∧
  (∀ msg, outcome_of h s (loadSchemaModules fs_path) ≠ Threw msg) ∧
  probed t (fs_path "schema.ts") ≠ None ∧
  probed (as_absent_event dir <$> t) dir = Some (Returns ExFalse) ∧
  run (as_absent_host dir h) s (loadSchemaModules fs_path) =
    (as_absent_event dir <$> t,
     state_after h s (loadSchemaModules fs_path),
     outcome_of h s (loadSchemaModules fs_path)).
Proof.
  intros Hpaths dir t.
  destruct (conventional_paths_apart fs_path Hpaths) as (? & ? & _).
  pose proof (loader_never_throws fs_path h s) as Hnt.
  pose proof (loader_as_absent h s Hpaths) as Hrun.
  intros Hfile. split_and!; [| done | | | done].
  all: revert Hfile; subst t dir.
  all: unfold loadSchemaModules; prog_unfold.
  all: next_call; [|by trace_simpl].
  all: next_call; [|by trace_simpl].
  all: trace_simpl; intros [= ->]; cbn match.
  - apply omap_none. eapply Forall_impl;
      [apply only_events_trace, single_file_checks_no_find|done].
  - rewrite trace_of_vis. trace_simpl. done.
  - cbn [fmap list_fmap]. unfold as_absent_event at 1 2. trace_simpl.
    cbn [as_absent_reply]. by rewrite decide_True.
Qed.


End NoSchema.

(** ** Starting the server *)

Section Starting.
Context (fs_path : string → string) (path_join : string → string → string).

Lemma start_quiet (gen exit : bool) (photon ctxp : string) (exports : gmap string handle)
    (config : option ServerOptions) :
  only_events (λ e, is_loading e = false)
    (startServerBody fs_path path_join gen exit photon ctxp exports config).
Proof.
  unfold startServerBody, callStartMessage. prog_unfold.
  do 6 (constructor; [done|intros ?]).
  match goal with x : listen_result |- _ => destruct x end; [|constructor].
  destruct (get _); prog_unfold; repeat constructor.
Qed.

(** What [startServer] does with the merged options. *)
Lemma start_run (gen exit : bool) (photon ctxp : string) (exports : gmap string handle)
    (config : option ServerOptions) (h : Host) (s : state h) :
  let merged := spread defaultServerOptions (default emptyOptions config) in
  let t := trace_of h s (startServerBody fs_path path_join gen exit photon ctxp exports config) in
  (∀ p, p ∈ listens t → p = get (port merged)) ∧
  (∀ cfg, cfg ∈ apollos t →
     apollo_playground cfg = get (playground merged) ∧
     apollo_introspection cfg = get (introspection merged)) ∧
  (raised t = false → listens t = [get (port merged)]) ∧
  (listening t = true → listens t = [get (port merged)]) ∧
  (listening t = false → logs t = []) ∧
  (∀ f, get (startMessage merged) = Some f →
     listening t = true → logs t = [f (get (port merged))]).
Proof.
  intros merged t.
  assert (Et : t = trace_of h s
    (startServerBody fs_path path_join gen exit photon ctxp exports config)) by done.
  clearbody t. revert Et.
  unfold startServerBody, callStartMessage. prog_unfold. fold merged.
  do 6 (next_call; [|intros ->; unfold apollos; trace_simpl; cbn [apollo_of ev_call omap list_omap];
                     split_and!; intros; simplify_eq; try done; members]).
  match goal with x : listen_result |- _ => destruct x end.
  2:{ run_simpl. intros ->. unfold apollos. trace_simpl. cbn [apollo_of ev_call omap list_omap].
      split_and!; intros; simplify_eq; try done; members. }
  destruct (get (startMessage merged)) as [f|] eqn:Ef; prog_unfold.
  2:{ run_simpl. intros ->. unfold apollos. trace_simpl. cbn [apollo_of ev_call omap list_omap].
      split_and!; intros; simplify_eq; try done; members. }
  next_call.
  all: intros ->; unfold apollos; trace_simpl; cbn [apollo_of ev_call omap list_omap].
  all: split_and!; intros; simplify_eq; try done; members.
Qed.


Lemma createApp_returns (h : Host) (s : state h) (app : App) :
  outcome_of h s (createApp fs_path path_join) = Returned app →
  ∃ gen exit cpath exports,
    startServer app =
      startServerBody fs_path path_join gen exit
        (fs_path "node_modules/@generated/photon") cpath exports.
Proof.
  rewrite createApp_unfold, outcome_of_bind.
  destruct (outcome_of h s (loadSchemaModules fs_path)) as [[]|?|?]; [|done..].
  destruct (assemble_run fs_path path_join h (state_after h s (loadSchemaModules fs_path)))
    as (_ & _ & _ & _ & A5 & _).
  intros Happ. by destruct (A5 app Happ) as [_ ?].
Qed.

Lemma createAppAndStart_trace (config : option ServerOptions) (h : Host) (s : state h) :
  trace_of h s (createAppAndStart fs_path path_join config) =
    trace_of h s (createApp fs_path path_join) ++
    match outcome_of h s (createApp fs_path path_join) with
    | Returned app =>
        trace_of h (state_after h s (createApp fs_path path_join)) (startServer app config)
    | _ => []
    end.
Proof. unfold createAppAndStart. by rewrite bind_unfold, trace_of_bind. Qed.

Lemma createApp_silent (h : Host) (s : state h) :
  let t := trace_of h s (createApp fs_path path_join) in
  listens t = [] ∧ logs t = [] ∧ listening t = false ∧ apollos t = [].
Proof.
  intros t. pose proof (createApp_no_server_construction fs_path path_join h s) as Hq.
  fold t in Hq. split_and!.
  - apply omap_none. eapply Forall_impl; [exact Hq|]. by intros e (_ & _ & ? & _).
  - apply omap_none. eapply Forall_impl; [exact Hq|]. by intros e (_ & _ & _ & ?).
  - apply existsb_false. eapply Forall_impl; [exact Hq|].
    intros [X c r] (_ & _ & Hl & _). by destruct c.
  - apply omap_none. eapply Forall_impl; [exact Hq|].
    intros [X c r] (Hc & _). by destruct c.
Qed.

(** What a call of [createApp] followed by [startServer] does with the
    merged options. *)
Lemma createAppAndStart_run (config : option ServerOptions) (h : Host) (s : state h) :
  let merged := spread defaultServerOptions (default emptyOptions config) in
  let t := trace_of h s (createAppAndStart fs_path path_join config) in
  (∀ p, p ∈ listens t → p = get (port merged)) ∧
  (∀ cfg, cfg ∈ apollos t →
     apollo_playground cfg = get (playground merged) ∧
     apollo_introspection cfg = get (introspection merged)) ∧
  (listening t = true → listens t = [get (port merged)]) ∧
  (listening t = false → logs t = []) ∧
  (∀ f, get (startMessage merged) = Some f →
     listening t = true → logs t = [f (get (port merged))]) ∧
  (raised t = false → (∃ app, outcome_of h s (createApp fs_path path_join) = Returned app) →
     listens t = [get (port merged)]).
Proof.
  intros merged t. subst t. rewrite createAppAndStart_trace.
  destruct (createApp_silent h s) as (Hl & Hg & Hb & Ha).
  unfold listens, logs, listening, apollos, raised in *.
  rewrite !omap_app, !existsb_app, Hl, Hg, Hb, Ha. cbn [app orb].
  destruct (outcome_of h s (createApp fs_path path_join)) as [app|msg|exn] eqn:Eo.
  2,3: by (split_and!; try done; [intros ? ?%elem_of_nil|intros ? ?%elem_of_nil|intros ? [? ?]]).
  destruct (createApp_returns h s app Eo) as (gen & exit & cpath & exports & ->).
  destruct (start_run gen exit (fs_path "node_modules/@generated/photon") cpath exports
              config h (state_after h s (createApp fs_path path_join)))
    as (S1 & S2 & S3 & S4 & S5 & S6).
  split_and!; try done.
  intros [_ Hr]%orb_false_elim _. by apply S3.
Qed.


(** C6.  [startServer] merges its options over the defaults with an object
    spread: a key that the caller supplies overrides the default, a key that
    is missing falls back to port 4000, the default start message,
    playground on and introspection on; the merged values are what
    [new ApolloServer] and [app.listen] receive.  With [{port: 5000}] the
    server listens on port 5000 and the start message is called with 5000. *)
Theorem options_override_defaults (config : ServerOptions) (h : Host) (s : state h) :
  let merged := spread defaultServerOptions config in
  let t := trace_of h s (createAppAndStart fs_path path_join (Some config)) in
  ((∀ v, port config = Present v → port merged = Present v) ∧
   (∀ v, startMessage config = Present v → startMessage merged = Present v) ∧
   (∀ v, playground config = Present v → playground merged = Present v) ∧
   (∀ v, introspection config = Present v → introspection merged = Present v)) ∧
  ((port config = Absent → get (port merged) = Some 4000%Z) ∧
   (startMessage config = Absent → get (startMessage merged) = Some defaultStartMessage) ∧
   (playground config = Absent → get (playground merged) = Some true) ∧
   (introspection config = Absent → get (introspection merged) = Some true)) ∧
  ((∀ p, p ∈ listens t → p = get (port merged)) ∧
   (∀ cfg, cfg ∈ apollos t →
      apollo_playground cfg = get (playground merged) ∧
      apollo_introspection cfg = get (introspection merged))) ∧
  (port config = Present (Some 5000%Z) →
     (∀ p, p ∈ listens t → p = Some 5000%Z) ∧
     (raised t = false →
      (∃ app, outcome_of h s (createApp fs_path path_join) = Returned app) →
      listens t = [Some 5000%Z]) ∧
     (listening t = true → listens t = [Some 5000%Z]) ∧
     (∀ f, get (startMessage merged) = Some f →
        listening t = true → logs t = [f (Some 5000%Z)]) ∧
     (startMessage config = Absent → listening t = true →
        logs t = ["🎃  Server ready at http://localhost:5000/"])).
Proof.
  intros merged t.
  destruct (createAppAndStart_run (Some config) h s) as (R1 & R2 & R3 & R4 & R5 & R6).
  change (default emptyOptions (Some config)) with config in *.
  fold merged t in R1, R2, R3, R4, R5, R6.
  split_and!; try done.
  - by intros v Hv; unfold merged; cbn; rewrite Hv.
  - by intros v Hv; unfold merged; cbn; rewrite Hv.
  - by intros v Hv; unfold merged; cbn; rewrite Hv.
  - by intros v Hv; unfold merged; cbn; rewrite Hv.
  - by intros Hv; unfold merged; cbn; rewrite Hv.
  - by intros Hv; unfold merged; cbn; rewrite Hv.
  - by intros Hv; unfold merged; cbn; rewrite Hv.
  - by intros Hv; unfold merged; cbn; rewrite Hv.
  - intros Hport.
    assert (get (port merged) = Some 5000%Z) as Hp by (unfold merged; cbn; by rewrite Hport).
    rewrite Hp in R1, R3, R5, R6. split_and!; try done.
    intros Hm Hl. apply (R5 defaultStartMessage); [|done].
    unfold merged. cbn. by rewrite Hm.
Qed.

(** C10.  When the options give no [startMessage], the message that
    [console.log] receives once the listener is bound is the default one,
    the text "🎃  Server ready at http://localhost:" followed by the merged
    port and "/"; the port is 4000 unless the options give one.  Nothing is
    logged as long as the listener is not bound. *)
Theorem default_start_message_logged (config : option ServerOptions) (h : Host) (s : state h) :
  startMessage (default emptyOptions config) = Absent →
  let merged := spread defaultServerOptions (default emptyOptions config) in
  let t := trace_of h s (createAppAndStart fs_path path_join config) in
  let message :=
    "🎃  Server ready at http://localhost:" +:+ template_number (get (port merged)) +:+ "/" in
  (listening t = true → logs t = [message]) ∧
  (listening t = false → logs t = []) ∧
  (port (default emptyOptions config) = Absent →
     message = "🎃  Server ready at http://localhost:4000/") ∧
  (∀ n, port (default emptyOptions config) = Present (Some n) →
     message = "🎃  Server ready at http://localhost:" +:+ pretty n +:+ "/").
Proof.
  intros Hm merged t message.
  destruct (createAppAndStart_run config h s) as (_ & _ & _ & R4 & R5 & _).
  fold merged t in R4, R5.
  split_and!; try done.
  - apply (R5 defaultStartMessage). unfold merged. cbn. by rewrite Hm.
  - intros Hp. unfold message, merged. cbn. by rewrite Hp.
  - intros n Hp. unfold message, merged. cbn. by rewrite Hp.
Qed.

(** C8.  The trace of [createApp] followed by [startServer] is the trace of
    the schema loader, then the calls that resolve and load the context
    module, then the calls of [startServer].  The second part starts only
    after the loader has returned and the third only after [createApp] has
    returned; the schema is built in the third part only, and no call of
    the third part touches the file system or evaluates a module. *)
Theorem loading_precedes_schema_build
    (config : option ServerOptions) (h : Host) (s : state h) :
  ∃ loading context server,
    trace_of h s (createAppAndStart fs_path path_join config) =
      loading ++ context ++ server ∧
    loading = trace_of h s (loadSchemaModules fs_path) ∧
    loading ++ context = trace_of h s (createApp fs_path path_join) ∧
    (context ≠ [] → outcome_of h s (loadSchemaModules fs_path) = Returned tt) ∧
    (server ≠ [] → ∃ app, outcome_of h s (createApp fs_path path_join) = Returned app) ∧
    Forall (λ e, is_schema_build e = false) (loading ++ context) ∧
    Forall (λ e, is_loading e = false) server.
Proof.
  eexists (trace_of h s (loadSchemaModules fs_path)),
    (match outcome_of h s (loadSchemaModules fs_path) with
     | Returned _ =>
         trace_of h (state_after h s (loadSchemaModules fs_path))
           (assembleApp fs_path path_join)
     | _ => []
     end),
    (match outcome_of h s (createApp fs_path path_join) with
     | Returned app =>
         trace_of h (state_after h s (createApp fs_path path_join)) (startServer app config)
     | _ => []
     end).
  assert (trace_of h s (loadSchemaModules fs_path) ++
          match outcome_of h s (loadSchemaModules fs_path) with
          | Returned _ =>
              trace_of h (state_after h s (loadSchemaModules fs_path))
                (assembleApp fs_path path_join)
          | _ => []
          end = trace_of h s (createApp fs_path path_join)) as Hc.
  { by rewrite createApp_unfold, trace_of_bind. }
  split_and!.
  - by rewrite createAppAndStart_trace, <-Hc, <-app_assoc.
  - done.
  - done.
  - by destruct (outcome_of h s (loadSchemaModules fs_path)) as [[]|?|?].
  - destruct (outcome_of h s (createApp fs_path path_join)); [by eexists|done..].
  - pose proof (createApp_no_server_construction fs_path path_join h s) as Hq.
    rewrite <-Hc in Hq. eapply Forall_impl; [exact Hq|].
    by intros e (_ & ? & _).
  - destruct (outcome_of h s (createApp fs_path path_join)) as [app|?|?] eqn:Eo;
      [|constructor..].
    destruct (createApp_returns h s app Eo) as (gen & exit & cpath & exports & ->).
    apply only_events_trace, start_quiet.
Qed.

End Starting.

(** ** The flags *)

(** C3 as stated does not hold: with every variable unset the
    artifact-generation flag is on and the exit flag is off, so no single
    reading of a variable and of the environment mode gives both flags. *)
Lemma exit_flag_not_parsed_like_generation_flag :
  shouldGenerateArtifacts ∅ = true ∧
  shouldExitAfterGenerateArtifacts ∅ = false ∧
  ¬ flags_parsed_alike.
Proof.
  split_and!; [done..|].
  intros [parse Hparse]. destruct (Hparse ∅) as [Hgen Hexit].
  rewrite !lookup_empty in Hgen, Hexit.
  assert (shouldGenerateArtifacts ∅ = true) as Hg by done.
  assert (shouldExitAfterGenerateArtifacts ∅ = false) as He by done.
  congruence.
Qed.

(** C3, amended.  The artifact-generation flag is read the tri-state way:
    ['true'] and ['false'] are taken literally and any other value falls
    back to the environment mode, which turns the flag on when [NODE_ENV] is
    unset, empty or ['development'].  The exit flag is on exactly when its
    variable is ['true']: its fallback is off, whatever the environment
    mode. *)
Theorem flags_from_environment (env : gmap string string) :
  shouldGenerateArtifacts env =
    tri_state (env !! "PUMPKINS_SHOULD_GENERATE_ARTIFACTS") (development_like env) ∧
  shouldExitAfterGenerateArtifacts env =
    tri_state (env !! "PUMPKINS_SHOULD_EXIT_AFTER_GENERATE_ARTIFACTS") false ∧
  (env !! "NODE_ENV" = None ∨ env !! "NODE_ENV" = Some "" ∨
   env !! "NODE_ENV" = Some "development" ↔ development_like env = true) ∧
  (shouldExitAfterGenerateArtifacts env = true ↔
   env !! "PUMPKINS_SHOULD_EXIT_AFTER_GENERATE_ARTIFACTS" = Some "true") ∧
  ∀ mode, shouldExitAfterGenerateArtifacts (<["NODE_ENV" := mode]> env) =
          shouldExitAfterGenerateArtifacts env.
Proof.
  split_and!.
  - done.
  - unfold shouldExitAfterGenerateArtifacts, tri_state.
    by repeat case_match.
  - unfold development_like, js_not, strict_equals.
    destruct (env !! "NODE_ENV") as [mode|]; [|by split; [|left]].
    rewrite orb_true_iff, !bool_decide_eq_true.
    split; [intros [?|[?|?]]|intros [?|?]]; simplify_eq; auto.
  - unfold shouldExitAfterGenerateArtifacts, strict_equals.
    case_bool_decide; naive_solver.
  - intros mode. unfold shouldExitAfterGenerateArtifacts.
    by rewrite lookup_insert_ne.
Qed.

(** ** Calls that raise *)

(** A run has a call that raised exactly when it ends with the exception of
    that call. *)
Lemma run_raised {A} (h : Host) (s : state h) (p : Prog A) :
  raised (trace_of h s p) = true ↔ ∃ exn, outcome_of h s p = Propagated exn.
Proof.
  revert s. induction p as [a|msg|X c k IH]; intros s.
  - split; [done|by intros [? ?]].
  - split; [done|by intros [? ?]].
  - rewrite trace_of_vis, outcome_of_vis.
    destruct (answer h c s) as [s' [x|exn]]; cbn [fst snd].
    + unfold raised in *. cbn. apply IH.
    + split; [by eexists|done].
Qed.

(** Computing what a trace with known events shows, for all the
    observations. *)
Ltac trace_simpl_all :=
  unfold envs, plugin_configs, schemas, debugs, probe_paths, apollos in *;
  trace_simpl;
  repeat (progress (
    cbn [env_of plugin_of schema_of debug_of probe_path apollo_of omap list_omap
         ev_call ev_reply] in *)).

Section Closure.
Context (fs_path : string → string) (path_join : string → string → string).

(** What the loader never calls. *)
Lemma loader_other_calls :
  only_events (λ e, env_of e = None ∧ plugin_of e = None ∧ schema_of e = None ∧
                    ∀ x, find_of e = Some x →
                      x.1 = (fs_path "server/schema", find_schema_options))
    (loadSchemaModules fs_path).
Proof.
  unfold loadSchemaModules. prog_unfold.
  constructor; [by intros|intros _].
  constructor; [by intros|intros dir].
  assert (only_events (λ e, env_of e = None ∧ plugin_of e = None ∧ schema_of e = None ∧
                    ∀ x, find_of e = Some x →
                      x.1 = (fs_path "server/schema", find_schema_options))
    (Vis (FsFind (fs_path "server/schema") find_schema_options)
       (λ found, forEach found (importSchemaModule fs_path)))) as Hdir.
  { constructor; [intros r; split_and!; try done; by intros x [= <-]|intros found].
    apply only_events_forEach. intros m. rewrite importSchemaModule_unfold.
    repeat (constructor; [by intros|intros ?]). constructor. }
  destruct dir; try done.
  all: constructor; [by intros|intros root].
  all: destruct root.
  all: repeat (constructor; [by intros|intros ?]).
  all: try constructor.
  all: match goal with x : exists_result |- _ => destruct x end.
  all: repeat (constructor; [by intros|intros ?]).
  all: constructor.
Qed.

Lemma assemble_other_calls :
  only_events (λ e, plugin_of e = None ∧ schema_of e = None ∧ debug_of e = None)
    (assembleApp fs_path path_join).
Proof.
  unfold assembleApp, resolveContextModule. prog_unfold.
  constructor; [done|intros env].
  constructor; [done|intros r].
  destruct r; prog_unfold; repeat (constructor; [done|intros ?]); constructor.
Qed.

(** What [startServer] never calls, and the flags that it passes on. *)
Lemma start_other_calls (gen exit : bool) (photon ctxp : string)
    (exports : gmap string handle) (config : option ServerOptions) :
  only_events (λ e, env_of e = None ∧ write_of e = None ∧ probe_path e = None ∧
                    find_of e = None ∧ require_of e = None ∧ debug_of e = None ∧
                    (∀ cfg, plugin_of e = Some cfg →
                       plugin_shouldGenerateArtifacts cfg = gen) ∧
                    (∀ cfg r, schema_of e = Some (cfg, r) →
                       schema_shouldGenerateArtifacts cfg = gen ∧
                       schema_shouldExitAfterGenerateArtifacts cfg = exit))
    (startServerBody fs_path path_join gen exit photon ctxp exports config).
Proof.
  unfold startServerBody, callStartMessage. prog_unfold.
  constructor; [intros r; split_and!; try done; by intros cfg [= <-]|intros ?].
  constructor; [intros r; split_and!; try done; by intros cfg r' [= <- _]|intros ?].
  do 4 (constructor; [done|intros ?]).
  match goal with x : listen_result |- _ => destruct x end; [|constructor].
  destruct (get _); prog_unfold; repeat constructor; done.
Qed.

(** What a returned application closes over. *)
Lemma assemble_closure (h : Host) (s : state h) (app : App) :
  outcome_of h s (assembleApp fs_path path_join) = Returned app →
  ∃ env cpath exports pre,
    trace_of h s (assembleApp fs_path path_join) =
      pre ++ [Event (RequireModule cpath) (Returns exports)] ∧
    envs (trace_of h s (assembleApp fs_path path_join)) = [Returns env] ∧
    requires (trace_of h s (assembleApp fs_path path_join)) = [cpath] ∧
    (cpath = fs_path "server/context.ts" ∨ cpath = fs_path ".pumpkins/context.ts") ∧
    startServer app =
      startServerBody fs_path path_join
        (shouldGenerateArtifacts env) (shouldExitAfterGenerateArtifacts env)
        (fs_path "node_modules/@generated/photon") cpath exports.
Proof.
  generalize (eq_refl (trace_of h s (assembleApp fs_path path_join))).
  generalize (trace_of h s (assembleApp fs_path path_join)) at 1 3 4 5 as t.
  intros t Et. revert Et.
  unfold assembleApp, resolveContextModule. prog_unfold.
  next_call; [|done].
  next_call; [|done].
  match goal with x : exists_result |- _ => destruct x end.
  all: prog_unfold; repeat next_call; run_simpl.
  all: intros -> Ho; simplify_eq.
  all: first
    [ by eexists _, _, _, [_; _]; trace_simpl_all; split_and!; try done; auto
    | by eexists _, _, _, [_; _; _]; trace_simpl_all; split_and!; try done; auto ].
Qed.


(** What [createApp] writes once the schema modules are loaded. *)
Lemma assemble_writes (h : Host) (s : state h) :
  let t := trace_of h s (assembleApp fs_path path_join) in
  writes t = [] ∨
  writes t = [(fs_path ".pumpkins/context.ts",
               defaultContextSource (fs_path "node_modules/@generated/photon"))].
Proof.
  intros t. assert (Et : t = trace_of h s (assembleApp fs_path path_join)) by done.
  clearbody t. revert Et.
  unfold assembleApp, resolveContextModule. prog_unfold.
  next_call; [|intros ->; trace_simpl_all; by left].
  next_call; [|intros ->; trace_simpl_all; by left].
  match goal with x : exists_result |- _ => destruct x end.
  all: prog_unfold; repeat next_call; run_simpl.
  all: intros ->; trace_simpl_all; auto.
Qed.

Lemma createApp_other_calls (h : Host) (s : state h) :
  let t := trace_of h s (createApp fs_path path_join) in
  plugin_configs t = [] ∧ schemas t = [].
Proof.
  intros t.
  assert (Forall (λ e, plugin_of e = None ∧ schema_of e = None) t) as Hq.
  { apply only_events_trace. rewrite createApp_unfold. apply only_events_bind.
    - eapply only_events_impl; [|apply loader_other_calls]. by intros e (_ & ? & ? & _).
    - intros _. eapply only_events_impl; [|apply assemble_other_calls].
      by intros e (? & ? & _). }
  split; apply omap_none; (eapply Forall_impl; [exact Hq|]); by intros e [? ?].
Qed.

Lemma loader_no_env (h : Host) (s : state h) :
  envs (trace_of h s (loadSchemaModules fs_path)) = [].
Proof.
  apply omap_none. eapply Forall_impl; [apply only_events_trace, loader_other_calls|].
  by intros e (? & _).
Qed.

(** What the application that [createApp] returns closes over. *)
Lemma createApp_closure (h : Host) (s : state h) (app : App) :
  let t := trace_of h s (createApp fs_path path_join) in
  outcome_of h s (createApp fs_path path_join) = Returned app →
  ∃ env cpath exports pre,
    t = pre ++ [Event (RequireModule cpath) (Returns exports)] ∧
    envs t = [Returns env] ∧
    (cpath = fs_path "server/context.ts" ∨ cpath = fs_path ".pumpkins/context.ts") ∧
    startServer app =
      startServerBody fs_path path_join
        (shouldGenerateArtifacts env) (shouldExitAfterGenerateArtifacts env)
        (fs_path "node_modules/@generated/photon") cpath exports.
Proof.
  intros t. subst t. rewrite createApp_unfold, trace_of_bind, outcome_of_bind.
  destruct (outcome_of h s (loadSchemaModules fs_path)) as [[]|?|?]; [|done..].
  intros Ho.
  destruct (assemble_closure h _ app Ho) as (env & cpath & exports & pre & Ht & He & _ & Hc & Hs).
  exists env, cpath, exports, (trace_of h s (loadSchemaModules fs_path) ++ pre).
  split_and!; [|  |done|done].
  - by rewrite Ht, app_assoc.
  - unfold envs in *. rewrite omap_app. fold (envs (trace_of h s (loadSchemaModules fs_path))).
    by rewrite loader_no_env.
Qed.

(** X3.  The application that [createApp] returns closes over what the run
    has just loaded: the last call of the run is the [require] of the
    context module, which is the user's [server/context.ts] or the default
    in [.pumpkins/context.ts]; [startServer] is given that path, the exports
    that this [require] returned, and the flags computed from the
    environment as the run found it. *)
Theorem created_app_closes_over_loaded_context (h : Host) (s : state h) (app : App) :
  let t := trace_of h s (createApp fs_path path_join) in
  outcome_of h s (createApp fs_path path_join) = Returned app →
  ∃ env cpath exports pre,
    t = pre ++ [Event (RequireModule cpath) (Returns exports)] ∧
    envs t = [Returns env] ∧
    (cpath = fs_path "server/context.ts" ∨ cpath = fs_path ".pumpkins/context.ts") ∧
    startServer app =
      startServerBody fs_path path_join
        (shouldGenerateArtifacts env) (shouldExitAfterGenerateArtifacts env)
        (fs_path "node_modules/@generated/photon") cpath exports.
Proof. apply createApp_closure. Qed.

(** X1.  The artifact flags are fixed when the application is created:
    in a run of [createApp] followed by [startServer] the environment is
    consulted by [createApp] only, and the flags that [makeSchema] and
    [nexusPrismaPlugin] receive in [startServer] are the ones computed from
    the environment as [createApp] found it, the same generation flag for
    both. *)
Theorem flags_fixed_when_app_is_created
    (config : option ServerOptions) (h : Host) (s : state h) :
  let t := trace_of h s (createAppAndStart fs_path path_join config) in
  envs t = envs (trace_of h s (createApp fs_path path_join)) ∧
  (∀ cfg r, (cfg, r) ∈ schemas t →
     ∃ env, envs t = [Returns env] ∧
       schema_shouldGenerateArtifacts cfg = shouldGenerateArtifacts env ∧
       schema_shouldExitAfterGenerateArtifacts cfg = shouldExitAfterGenerateArtifacts env) ∧
  (∀ cfg, cfg ∈ plugin_configs t →
     ∃ env, envs t = [Returns env] ∧
       plugin_shouldGenerateArtifacts cfg = shouldGenerateArtifacts env).
Proof.
  intros t. subst t. rewrite createAppAndStart_trace.
  destruct (createApp_other_calls h s) as [Hp Hs].
  unfold envs, schemas, plugin_configs in *. rewrite !omap_app, Hp, Hs. cbn [app].
  destruct (outcome_of h s (createApp fs_path path_join)) as [app|?|?] eqn:Eo.
  2,3: by rewrite app_nil_r; split_and!; try done;
         [intros ? ? ?%elem_of_nil|intros ? ?%elem_of_nil].
  destruct (createApp_closure h s app Eo) as (env & cpath & exports & pre & _ & He & _ & ->).
  unfold envs in He.
  pose proof (only_events_trace _ _ h (state_after h s (createApp fs_path path_join))
    (start_other_calls (shouldGenerateArtifacts env) (shouldExitAfterGenerateArtifacts env)
       (fs_path "node_modules/@generated/photon") cpath exports config)) as Hq.
  assert (omap env_of (trace_of h (state_after h s (createApp fs_path path_join))
            (startServerBody fs_path path_join (shouldGenerateArtifacts env)
               (shouldExitAfterGenerateArtifacts env)
               (fs_path "node_modules/@generated/photon") cpath exports config)) = [])
    as Hnone.
  { apply omap_none. eapply Forall_impl; [exact Hq|]. by intros e (? & _). }
  rewrite Hnone, app_nil_r, He.
  split_and!; [done| |].
  - intros cfg r (e & He' & Hcfg)%list_elem_of_omap. exists env. split; [done|].
    rewrite Forall_forall in Hq. by destruct (Hq e He') as (_ & _ & _ & _ & _ & _ & _ & Hflags);
      apply (Hflags cfg r).
  - intros cfg (e & He' & Hcfg)%list_elem_of_omap. exists env. split; [done|].
    rewrite Forall_forall in Hq. by destruct (Hq e He') as (_ & _ & _ & _ & _ & _ & Hflag & _);
      apply (Hflag cfg).
Qed.

End Closure.

(** ** The calls of [startServer] *)

Section Serving.
Context (fs_path : string → string) (path_join : string → string → string).

(** X2.  When no call raises, [startServer] makes its calls in one order,
    each on what the one before returned: the plugin that
    [nexusPrismaPlugin] returns is the plugin of [makeSchema], the schema
    that [makeSchema] returns and the [createContext] export of the context
    module go to [new ApolloServer], the middleware is applied to that
    server and the application that [express()] returns, and that
    application is the one that listens; the start message, if any, is
    logged last. *)
Theorem start_server_sequence
    (gen exit : bool) (photon cpath : string) (exports : gmap string handle)
    (config : option ServerOptions) (h : Host) (s : state h) :
  let merged := spread defaultServerOptions (default emptyOptions config) in
  let t := trace_of h s
             (startServerBody fs_path path_join gen exit photon cpath exports config) in
  raised t = false →
  ∃ plugin schema server app bound,
    t = [Event (NexusPrismaPlugin {|
                  inputs_photon := photon;
                  outputs_typegen :=
                    fs_path "node_modules/@types/nexus-typegen-prisma/index.d.ts";
                  plugin_shouldGenerateArtifacts := gen |}) (Returns plugin);
         Event (MakeSchema {|
                  typegenAutoConfig := {|
                    contextType := "Context.Context";
                    sources := [
                      {| source := cpath; alias := "Context" |};
                      {| source := path_join photon "/index.d.ts"; alias := "photon" |}] |};
                  schema_shouldGenerateArtifacts := gen;
                  schema_shouldExitAfterGenerateArtifacts := exit;
                  plugins := [plugin] |}) (Returns schema);
         Event (NewApolloServer {|
                  apollo_playground := get (playground merged);
                  apollo_introspection := get (introspection merged);
                  apollo_context := exports !! "createContext";
                  apollo_schema := schema |}) (Returns server);
         Event Express (Returns app);
         Event (ApplyMiddleware server app) (Returns tt);
         Event (AppListen app (get (port merged))) (Returns bound)] ++
        ((λ message, Event (ConsoleLog message) (Returns tt)) <$> logs t).
Proof.
  intros merged t.
  assert (Et : t = trace_of h s
    (startServerBody fs_path path_join gen exit photon cpath exports config)) by done.
  clearbody t. revert Et.
  unfold startServerBody, callStartMessage. prog_unfold. fold merged.
  do 6 (next_call; [|by intros ->; trace_simpl]).
  match goal with x : listen_result |- _ => destruct x end.
  2:{ run_simpl. intros -> _. trace_simpl.
      repeat match goal with u : () |- _ => destruct u end. by eexists _, _, _, _, _. }
  destruct (get (startMessage merged)) as [f|] eqn:Ef; prog_unfold.
  2:{ run_simpl. intros -> _. trace_simpl.
      repeat match goal with u : () |- _ => destruct u end. by eexists _, _, _, _, _. }
  next_call; [|by intros ->; trace_simpl].
  intros -> _. trace_simpl.
  repeat match goal with u : () |- _ => destruct u end. by eexists _, _, _, _, _.
Qed.

(** What [startServer] does when the schema build fails, and when the start
    message is not a function. *)
Lemma start_failures
    (gen exit : bool) (photon cpath : string) (exports : gmap string handle)
    (config : option ServerOptions) (h : Host) (s : state h) :
  let merged := spread defaultServerOptions (default emptyOptions config) in
  let t := trace_of h s
             (startServerBody fs_path path_join gen exit photon cpath exports config) in
  let o := outcome_of h s
             (startServerBody fs_path path_join gen exit photon cpath exports config) in
  (∀ cfg exn, (cfg, Raises exn) ∈ schemas t →
     o = Propagated exn ∧ (∃ pre, t = pre ++ [Event (MakeSchema cfg) (Raises exn)]) ∧
     apollos t = [] ∧ listens t = [] ∧ logs t = []) ∧
  (get (startMessage merged) = None → listening t = true →
     logs t = [] ∧ ∃ msg, o = Threw msg).
Proof.
  intros merged t o.
  assert (Et : t = trace_of h s
    (startServerBody fs_path path_join gen exit photon cpath exports config)) by done.
  assert (Eo : o = outcome_of h s
    (startServerBody fs_path path_join gen exit photon cpath exports config)) by done.
  clearbody t o. revert Et Eo.
  unfold startServerBody, callStartMessage. prog_unfold. fold merged.
  next_call; [|intros -> ->; trace_simpl_all; split; [by intros ?? ?%elem_of_nil|done]].
  next_call.
  2:{ intros -> ->. trace_simpl_all. split; [|done].
      intros cfg exn' [= <- <-]%list_elem_of_singleton. split_and!; try done.
      by eexists [_]. }
  do 4 (next_call; [|intros -> ->; trace_simpl_all;
                     split; [by intros ?? [=]%list_elem_of_singleton|done]]).
  match goal with x : listen_result |- _ => destruct x end.
  2:{ run_simpl. intros -> ->. trace_simpl_all.
      split; [by intros ?? [=]%list_elem_of_singleton|done]. }
  destruct (get (startMessage merged)) as [f|] eqn:Ef; prog_unfold.
  2:{ run_simpl. intros -> ->. trace_simpl_all.
      split; [by intros ?? [=]%list_elem_of_singleton|]. intros _ _. split; [done|by eexists]. }
  next_call.
  all: intros -> ->; trace_simpl_all.
  all: split; [by intros ?? [=]%list_elem_of_singleton|done].
Qed.

Lemma createAppAndStart_outcome (config : option ServerOptions) (h : Host) (s : state h) :
  outcome_of h s (createAppAndStart fs_path path_join config) =
    match outcome_of h s (createApp fs_path path_join) with
    | Returned app =>
        outcome_of h (state_after h s (createApp fs_path path_join)) (startServer app config)
    | Threw msg => Threw msg
    | Propagated exn => Propagated exn
    end.
Proof. unfold createAppAndStart. by rewrite bind_unfold, outcome_of_bind. Qed.

(** X4.  A schema build that fails is not guarded: when [makeSchema] raises,
    the run of [createApp] followed by [startServer] ends with that
    exception at that call; no server is constructed, nothing listens and
    nothing is logged. *)
Theorem schema_build_failure_is_unguarded
    (config : option ServerOptions) (h : Host) (s : state h)
    (cfg : schema_config) (exn : string) :
  let t := trace_of h s (createAppAndStart fs_path path_join config) in
  (cfg, Raises exn) ∈ schemas t →
  outcome_of h s (createAppAndStart fs_path path_join config) = Propagated exn ∧
  (∃ pre, t = pre ++ [Event (MakeSchema cfg) (Raises exn)]) ∧
  apollos t = [] ∧ listens t = [] ∧ logs t = [].
Proof.
  intros t. subst t. rewrite createAppAndStart_trace, createAppAndStart_outcome.
  destruct (createApp_other_calls fs_path path_join h s) as [_ Hs].
  destruct (createApp_silent fs_path path_join h s) as (Hl & Hg & _ & Ha).
  unfold schemas, apollos, listens, logs in *. rewrite !omap_app, Hs, Hl, Hg, Ha. cbn [app].
  destruct (outcome_of h s (createApp fs_path path_join)) as [app|?|?] eqn:Eo.
  2,3: by intros ?%elem_of_nil.
  destruct (createApp_returns fs_path path_join h s app Eo)
    as (gen & exit & cpath & exports & ->).
  intros Hin.
  destruct (start_failures gen exit (fs_path "node_modules/@generated/photon") cpath exports
              config h (state_after h s (createApp fs_path path_join))) as [Hfail _].
  destruct (Hfail cfg exn Hin) as (Ho & (pre & Ht) & ? & ? & ?).
  split_and!; try done.
  rewrite Ht. eexists (_ ++ pre). by rewrite app_assoc.
Qed.

(** X8.  An explicit [{startMessage: undefined}] is not replaced by the
    default: once the listener is bound, calling the start message is a type
    error, which ends the run, and nothing is logged. *)
Theorem undefined_start_message_is_type_error
    (config : ServerOptions) (h : Host) (s : state h) :
  let t := trace_of h s (createAppAndStart fs_path path_join (Some config)) in
  startMessage config = Present None →
  listening t = true →
  logs t = [] ∧
  ∃ msg, outcome_of h s (createAppAndStart fs_path path_join (Some config)) = Threw msg.
Proof.
  intros t Hm. subst t. rewrite createAppAndStart_trace, createAppAndStart_outcome.
  destruct (createApp_silent fs_path path_join h s) as (_ & Hg & Hb & _).
  unfold listening, logs in *. rewrite omap_app, existsb_app, Hg, Hb. cbn [app orb].
  destruct (outcome_of h s (createApp fs_path path_join)) as [app|?|?] eqn:Eo; [|done..].
  destruct (createApp_returns fs_path path_join h s app Eo)
    as (gen & exit & cpath & exports & ->).
  destruct (start_failures gen exit (fs_path "node_modules/@generated/photon") cpath exports
              (Some config) h (state_after h s (createApp fs_path path_join))) as [_ Herr].
  apply Herr. cbn. by rewrite Hm.
Qed.

(** X9.  An explicit [{port: undefined}] is not replaced by 4000:
    [app.listen] is given an undefined port, and with the default start
    message the line logged once the listener is bound ends in
    "localhost:undefined/". *)
Theorem undefined_port_is_passed_on
    (config : ServerOptions) (h : Host) (s : state h) :
  let t := trace_of h s (createAppAndStart fs_path path_join (Some config)) in
  port config = Present None →
  (∀ p, p ∈ listens t → p = None) ∧
  (listening t = true → listens t = [None]) ∧
  (startMessage config = Absent → listening t = true →
     logs t = ["🎃  Server ready at http://localhost:undefined/"]).
Proof.
  intros t Hp.
  destruct (createAppAndStart_run fs_path path_join (Some config) h s)
    as (R1 & _ & R3 & _ & R5 & _).
  change (default emptyOptions (Some config)) with config in *.
  fold t in R1, R3, R5.
  assert (get (port (spread defaultServerOptions config)) = None) as Hport.
  { cbn. by rewrite Hp. }
  rewrite Hport in R1, R3, R5. split_and!; try done.
  intros Hm Hl. apply (R5 defaultStartMessage); [|done]. cbn. by rewrite Hm.
Qed.

End Serving.

(** ** The footprint of a run *)

(** A run that ends with an exception ends at the call that raised it. *)
Lemma run_propagated {A} (h : Host) (s : state h) (p : Prog A) (exn : string) :
  outcome_of h s p = Propagated exn →
  ∃ pre (X : Type) (c : call X),
    trace_of h s p = pre ++ [Event c (Raises exn)] ∧ raised pre = false.
Proof.
  revert s. induction p as [a|msg|X c k IH]; intros s; [done..|].
  rewrite trace_of_vis, outcome_of_vis.
  destruct (answer h c s) as [s' [x|exn']]; cbn [fst snd].
  - intros (pre & Y & c' & -> & Hpre)%IH. by exists (Event c (Returns x) :: pre), Y, c'.
  - intros [= ->]. by exists [], X, c.
Qed.

Section Footprint.
Context (fs_path : string → string) (path_join : string → string → string).

(** The lines that importing the listed modules gives to [debug]. *)
Lemma import_debugs (found : list string) (h : Host) (s : state h) :
  let t := trace_of h s (forEach found (importSchemaModule fs_path)) in
  ∃ announced,
    debugs t = (λ m, ("importing %s", [m])) <$> announced ∧
    announced `prefix_of` found ∧
    requires t `prefix_of` (fs_path <$> announced) ∧
    (raised t = false → requires t = fs_path <$> announced ∧ announced = found).
Proof.
  clear path_join.
  revert s. induction found as [|m found IH]; intros s.
  { by exists []. }
  cbn [forEach]. rewrite importSchemaModule_unfold. prog_unfold.
  next_call; [|exists [m]; trace_simpl_all; split_and!;
                 [done|apply prefix_cons, prefix_nil|apply prefix_nil|done]].
  next_call; [|exists [m]; trace_simpl_all; split_and!;
                 [done|apply prefix_cons, prefix_nil|done|done]].
  match goal with |- context [trace_of h ?s' (forEach _ _)] => specialize (IH s') end.
  destruct IH as (announced & IH1 & IH2 & IH3 & IH4).
  exists (m :: announced). trace_simpl_all. fold (debugs) in *. unfold debugs, requires in *.
  rewrite IH1. split_and!; [done|by apply prefix_cons|by apply prefix_cons|].
  intros Hr. destruct (IH4 Hr) as [-> ->]. done.
Qed.

(** X12.  Every schema module is announced to [debug] before it is
    required: after the line "finding schema modules ..." the loader gives
    [debug] one "importing %s" line per module, with the path as found, and
    requires that path resolved by [fs.path].  The modules announced are a
    prefix of the listing of [fs.find], all of it when no call raises. *)
Theorem imported_modules_are_announced (h : Host) (s : state h) :
  let t := trace_of h s (loadSchemaModules fs_path) in
  ∃ announced,
    debugs t =
      ("finding schema modules ...", []) :: ((λ m, ("importing %s", [m])) <$> announced) ∧
    requires t `prefix_of` (fs_path <$> announced) ∧
    (raised t = false → requires t = fs_path <$> announced) ∧
    (∀ found, (fs_path "server/schema", find_schema_options, Returns found) ∈ finds t →
       announced `prefix_of` found ∧ (raised t = false → announced = found)).
Proof.
  clear path_join.
  intros t. assert (Et : t = trace_of h s (loadSchemaModules fs_path)) by done.
  clearbody t. revert Et.
  loader_cases fs_path; intros ->; trace_simpl_all.
  all: rewrite ?import_no_find.
  all: try match goal with
       | |- context [trace_of ?h0 ?s0 (forEach ?l _)] =>
           destruct (import_debugs l h0 s0) as (announced & Hd & Hp & Hq & Hr);
           unfold debugs, requires in Hd, Hq, Hr;
           exists announced; rewrite Hd; split_and!;
           [done|done|by intros Hq'; destruct (Hr Hq')|];
           intros found [= <-]%list_elem_of_singleton;
           split; [done|by intros Hq'; destruct (Hr Hq')]
       end.
  all: first
    [ by exists []; split_and!; [done|apply prefix_nil|done|intros ? ?%elem_of_nil]
    | by exists []; split_and!;
        [done|apply prefix_nil|done|intros ? [=]%list_elem_of_singleton]
    | by eexists [_]; split_and!;
        [reflexivity|first [apply prefix_nil|by cbn]|done|intros ? ?%elem_of_nil] ].
Qed.


(** X5.  A call that raises while the schema modules are loaded (a schema
    module that fails to load, say) ends [createApp] with that exception at
    that call: nothing of the rest of [createApp] runs, so the environment
    is not consulted and no context module is written, and no application is
    returned. *)
Theorem failing_schema_module_stops_createApp (h : Host) (s : state h) :
  let loading := trace_of h s (loadSchemaModules fs_path) in
  let t := trace_of h s (createApp fs_path path_join) in
  raised loading = true →
  t = loading ∧
  (∃ exn, outcome_of h s (createApp fs_path path_join) = Propagated exn ∧
     ∃ pre (X : Type) (c : call X), t = pre ++ [Event c (Raises exn)] ∧ raised pre = false) ∧
  envs t = [] ∧ writes t = [].
Proof.
  intros loading t [exn Hexn]%run_raised. subst loading t.
  rewrite createApp_unfold, trace_of_bind, outcome_of_bind, Hexn, app_nil_r.
  split_and!; [done| |apply loader_no_env|apply loader_no_write].
  exists exn. split; [done|]. by apply run_propagated.
Qed.

(** X6.  The file-system footprint of [createApp] followed by
    [startServer], on every host: [fs.exists] is asked about the four
    conventional paths only, [fs.find] about [server/schema] with the
    [*.ts] options only, and the only file ever written is the default
    context module in [.pumpkins/context.ts], at most once. *)
Theorem file_system_footprint
    (config : option ServerOptions) (h : Host) (s : state h) :
  let t := trace_of h s (createAppAndStart fs_path path_join config) in
  (∀ p, p ∈ probe_paths t → p ∈ fs_path <$> conventional_paths) ∧
  (∀ x, x ∈ finds t → x.1 = (fs_path "server/schema", find_schema_options)) ∧
  (writes t = [] ∨
   writes t = [(fs_path ".pumpkins/context.ts",
                defaultContextSource (fs_path "node_modules/@generated/photon"))]).
Proof.
  intros t.
  assert (Forall (λ e, (∀ q, probe_path e = Some q → q ∈ fs_path <$> conventional_paths) ∧
                       (∀ x, find_of e = Some x →
                          x.1 = (fs_path "server/schema", find_schema_options))) t) as Hq.
  { subst t. rewrite createAppAndStart_trace, createApp_unfold, trace_of_bind.
    rewrite !Forall_app. split_and!.
    - apply Forall_and. split.
      + eapply Forall_impl; [apply only_events_trace, loader_quiet|].
        intros e (_ & _ & _ & _ & _ & Hp) q Hq. specialize (Hp q Hq). cbn.
        rewrite !elem_of_cons in *. tauto.
      + eapply Forall_impl; [apply only_events_trace, loader_other_calls|].
        by intros e (_ & _ & _ & Hf).
    - destruct (outcome_of h s (loadSchemaModules fs_path)); [|done..].
      apply Forall_and. split.
      + eapply Forall_impl; [apply only_events_trace, assemble_probes_context|].
        intros e Hp q Hq. rewrite (Hp q Hq). cbn. rewrite !elem_of_cons. tauto.
      + eapply Forall_impl; [apply only_events_trace, assemble_quiet|].
        by intros e (_ & _ & -> & _).
    - rewrite <-createApp_unfold.
      destruct (outcome_of h s (createApp fs_path path_join)) as [app|?|?] eqn:Eo; [|done..].
      destruct (createApp_returns fs_path path_join h s app Eo)
        as (gen & exit & cpath & exports & ->).
      eapply Forall_impl; [apply only_events_trace, start_other_calls|].
      by intros e (_ & _ & -> & -> & _). }
  split_and!.
  - intros p (e & He & Hp)%list_elem_of_omap. rewrite Forall_forall in Hq.
    by apply (Hq e He).
  - intros x (e & He & Hx)%list_elem_of_omap. rewrite Forall_forall in Hq.
    by apply (Hq e He).
  - subst t. rewrite createAppAndStart_trace, createApp_unfold, trace_of_bind.
    unfold writes. rewrite !omap_app.
    fold (writes (trace_of h s (loadSchemaModules fs_path))). rewrite loader_no_write.
    rewrite <-createApp_unfold.
    assert (omap write_of
              match outcome_of h s (createApp fs_path path_join) with
              | Returned app =>
                  trace_of h (state_after h s (createApp fs_path path_join))
                    (startServer app config)
              | _ => []
              end = []) as ->.
    { destruct (outcome_of h s (createApp fs_path path_join)) as [app|?|?] eqn:Eo; [|done..].
      destruct (createApp_returns fs_path path_join h s app Eo)
        as (gen & exit & cpath & exports & ->).
      apply omap_none. eapply Forall_impl; [apply only_events_trace, start_other_calls|].
      by intros e (_ & -> & _). }
    rewrite app_nil_r. cbn [app].
    destruct (outcome_of h s (loadSchemaModules fs_path)); [|by left..].
    apply assemble_writes.
Qed.

End Footprint.

(** ** A schema directory without modules *)

Section Shadowing.
Context (fs_path : string → string).

(** X13.  A schema directory without modules shadows the single schema
    files: when [server/schema] is a directory and [fs.find] lists nothing
    in it, the loader requires no module and returns without an error, and
    it does not even ask whether [schema.ts] or [server/schema.ts]
    exists. *)
Theorem empty_schema_directory_shadows_schema_files (h : Host) (s : state h) :
  let t := trace_of h s (loadSchemaModules fs_path) in
  (fs_path "server/schema", find_schema_options, Returns []) ∈ finds t →
  requires t = [] ∧
  probe_paths t = [fs_path "server/schema"] ∧
  raised t = false ∧
  outcome_of h s (loadSchemaModules fs_path) = Returned tt.
Proof.
  intros t. assert (Et : t = trace_of h s (loadSchemaModules fs_path)) by done.
  assert (Eo : ∃ o, o = outcome_of h s (loadSchemaModules fs_path)) by by eexists.
  destruct Eo as [o Eo]. rewrite <-Eo. clearbody t. revert Et Eo.
  loader_cases fs_path; intros -> ->; trace_simpl_all.
  all: try by intros ?%elem_of_nil.
  all: rewrite ?import_no_find.
  all: intros [=]%list_elem_of_singleton; subst.
  cbn [forEach]. run_simpl. by repeat match goal with u : () |- _ => destruct u end.
Qed.

End Shadowing.

(** ** The merged options *)

(** X7.  After the spread over the defaults every option key is present,
    and an option reads [undefined] exactly when the caller passed
    [undefined] for it explicitly. *)
Theorem merged_option_undefined_iff_explicit (config : ServerOptions) :
  let merged := spread defaultServerOptions config in
  (port merged ≠ Absent ∧ startMessage merged ≠ Absent ∧
   playground merged ≠ Absent ∧ introspection merged ≠ Absent) ∧
  (get (port merged) = None ↔ port config = Present None) ∧
  (get (startMessage merged) = None ↔ startMessage config = Present None) ∧
  (get (playground merged) = None ↔ playground config = Present None) ∧
  (get (introspection merged) = None ↔ introspection config = Present None).
Proof.
  destruct config as [[|[p|]] [|[m|]] [|[g|]] [|[i|]]]; cbn; split_and!; done.
Qed.

(** ** An explicit generation flag *)

(** X11.  When [PUMPKINS_SHOULD_GENERATE_ARTIFACTS] is ['true'] or
    ['false'], the artifact-generation flag is that value whatever
    [NODE_ENV] is set to or whether it is set at all. *)
Theorem explicit_generation_flag_wins (env : gmap string string) (v : string) :
  env !! "PUMPKINS_SHOULD_GENERATE_ARTIFACTS" = Some v →
  v = "true" ∨ v = "false" →
  shouldGenerateArtifacts env = bool_decide (v = "true") ∧
  (∀ mode, shouldGenerateArtifacts (<["NODE_ENV" := mode]> env) =
           shouldGenerateArtifacts env) ∧
  shouldGenerateArtifacts (delete "NODE_ENV" env) = shouldGenerateArtifacts env.
Proof.
  intros Hv Hlit. unfold shouldGenerateArtifacts.
  rewrite lookup_delete_ne by done. rewrite Hv.
  split_and!.
  - by destruct Hlit as [-> | ->].
  - intros mode. rewrite lookup_insert_ne by done. rewrite Hv.
    by destruct Hlit as [-> | ->].
  - by destruct Hlit as [-> | ->].
Qed.

(** ** The global scope *)

(** X10.  The assignments to the global object define the nine builder
    names and leave every other global as it was; each builder that the
    module exports is the object of the same name in the global scope, while
    [queryType], [mutationType], [intArg] and [stringArg] are global
    only. *)
Theorem global_builders_are_the_exported_ones
    (nexus : NexusSingleton) (intArg stringArg : handle) (global : gmap string handle) :
  let augmented := augmentGlobal nexus intArg stringArg global in
  exportedBuilders nexus ⊆ augmented ∧
  dom augmented = dom global ∪ list_to_set global_names ∧
  (∀ name, name ∉ global_names → augmented !! name = global !! name) ∧
  (augmented !! "queryType" = Some (queryType nexus) ∧
   augmented !! "mutationType" = Some (mutationType nexus) ∧
   augmented !! "intArg" = Some intArg ∧
   augmented !! "stringArg" = Some stringArg) ∧
  (exportedBuilders nexus !! "queryType" = None ∧
   exportedBuilders nexus !! "mutationType" = None ∧
   exportedBuilders nexus !! "intArg" = None ∧
   exportedBuilders nexus !! "stringArg" = None).
Proof.
  intros augmented. subst augmented. unfold augmentGlobal, exportedBuilders, global_names.
  split_and!.
  - apply map_subseteq_spec. intros name h Hname.
    rewrite !lookup_insert_Some, lookup_empty in Hname.
    repeat destruct Hname as [[<- <-]|[? Hname]]; [..|done].
    all: repeat (rewrite lookup_insert_ne by done); by rewrite lookup_insert_eq.
  - rewrite !dom_insert_L. apply set_eq. intros name.
    rewrite !elem_of_union, !elem_of_list_to_set, !elem_of_cons, !elem_of_singleton,
      elem_of_nil.
    tauto.
  - intros name Hname. rewrite !not_elem_of_cons in Hname.
    destruct Hname as (? & ? & ? & ? & ? & ? & ? & ? & ? & _).
    by rewrite !lookup_insert_ne.
  - repeat (rewrite lookup_insert_ne by done); by rewrite lookup_insert_eq.
  - repeat (rewrite lookup_insert_ne by done); by rewrite lookup_insert_eq.
  - repeat (rewrite lookup_insert_ne by done); by rewrite lookup_insert_eq.
  - by rewrite lookup_insert_eq.
  - done.
  - done.
  - done.
  - done.
Qed.

(** * The theorems on the example projects *)

(** C1 on a project that has a schema directory and both single schema
    files: the two [*.ts] files of the directory are required, no other. *)
Lemma schema_loading_first_match_wins_witness :
  NoDup (Sim.path "/app" <$> conventional_paths) ∧
  directory_branch (Sim.path "/app")
    (trace_of Sim.host schema_directory_project (loadSchemaModules (Sim.path "/app"))) ∧
  finds (trace_of Sim.host schema_directory_project (loadSchemaModules (Sim.path "/app"))) =
    [("/app/server/schema", find_schema_options,
      Returns ["server/schema/user.ts"; "server/schema/blog/post.ts"])] ∧
  requires (trace_of Sim.host schema_directory_project (loadSchemaModules (Sim.path "/app"))) =
    ["/app/server/schema/user.ts"; "/app/server/schema/blog/post.ts"] ∧
  ¬ root_file_branch (Sim.path "/app")
      (trace_of Sim.host schema_directory_project (loadSchemaModules (Sim.path "/app"))).
Proof.
  split; [compute_done|].
  split; [vm_compute; reflexivity|].
  split; [vm_compute; reflexivity|].
  split; [vm_compute; reflexivity|].
  destruct (schema_loading_first_match_wins (Sim.path "/app") Sim.join Sim.host
              schema_directory_project)
    as (_ & _ & _ & _ & _ & _ & _ & _ & Hexclusive & _).
  - compute_done.
  - intros Hroot. apply Hexclusive. split; [vm_compute; reflexivity|exact Hroot].
Defined.

(** C2 on a project whose [server/context.ts] is a folder. *)
Lemma context_folder_is_configuration_error_witness :
  NoDup (Sim.path "/app" <$> conventional_paths) ∧
  probed (trace_of Sim.host context_folder_project (createApp (Sim.path "/app") Sim.join))
    "/app/server/context.ts" = Some (Returns ExDir) ∧
  outcome_of Sim.host context_folder_project (createApp (Sim.path "/app") Sim.join) =
    Threw "context.ts must be a file, but it was a folder!".
Proof.
  split; [compute_done|].
  split; [vm_compute; reflexivity|].
  apply (context_folder_is_configuration_error (Sim.path "/app") Sim.join Sim.host
           context_folder_project).
  - compute_done.
  - vm_compute; reflexivity.
Defined.

(** C4 on a second call of [createApp], made when the first call has left
    the default context module in the cache: it is written again. *)
Lemma default_context_always_written_witness :
  let after_first_call :=
    state_after Sim.host empty_project (createApp (Sim.path "/app") Sim.join) in
  NoDup (Sim.path "/app" <$> conventional_paths) ∧
  Sim.exists_ after_first_call "/app/.pumpkins/context.ts" = ExFile ∧
  probed (trace_of Sim.host after_first_call (createApp (Sim.path "/app") Sim.join))
    "/app/server/context.ts" = Some (Returns ExFalse) ∧
  ExFalse ≠ ExFile ∧ ExFalse ≠ ExDir ∧
  writes (trace_of Sim.host after_first_call (createApp (Sim.path "/app") Sim.join)) =
    [("/app/.pumpkins/context.ts",
      defaultContextSource "/app/node_modules/@generated/photon")].
Proof.
  intros after_first_call.
  split; [compute_done|].
  split; [vm_compute; reflexivity|].
  split; [vm_compute; reflexivity|].
  split; [discriminate|]. split; [discriminate|].
  apply (default_context_always_written (Sim.path "/app") Sim.join Sim.host
           after_first_call ExFalse).
  - compute_done.
  - vm_compute; reflexivity.
  - discriminate.
  - discriminate.
Defined.

(** C5 on a project with its own context module. *)
Lemma user_context_used_directly_witness :
  NoDup (Sim.path "/app" <$> conventional_paths) ∧
  probed (trace_of Sim.host user_context_project (createApp (Sim.path "/app") Sim.join))
    "/app/server/context.ts" = Some (Returns ExFile) ∧
  writes (trace_of Sim.host user_context_project (createApp (Sim.path "/app") Sim.join)) = [].
Proof.
  split; [compute_done|].
  split; [vm_compute; reflexivity|].
  apply (user_context_used_directly (Sim.path "/app") Sim.join Sim.host user_context_project).
  - compute_done.
  - vm_compute; reflexivity.
Defined.

(** C7 on an empty project. *)
Lemma no_schema_is_not_an_error_witness :
  NoDup (Sim.path "/app" <$> conventional_paths) ∧
  probed (trace_of Sim.host empty_project (createApp (Sim.path "/app") Sim.join))
    "/app/server/schema" = Some (Returns ExFalse) ∧
  probed (trace_of Sim.host empty_project (createApp (Sim.path "/app") Sim.join))
    "/app/schema.ts" = Some (Returns ExFalse) ∧
  probed (trace_of Sim.host empty_project (createApp (Sim.path "/app") Sim.join))
    "/app/server/schema.ts" = Some (Returns ExFalse) ∧
  schema_registry (λ p, [p])
    (trace_of Sim.host empty_project (loadSchemaModules (Sim.path "/app"))) = [] ∧
  ∃ app, outcome_of Sim.host empty_project (createApp (Sim.path "/app") Sim.join) =
         Returned app.
Proof.
  split; [compute_done|].
  split; [vm_compute; reflexivity|].
  split; [vm_compute; reflexivity|].
  split; [vm_compute; reflexivity|].
  destruct (no_schema_is_not_an_error (Sim.path "/app") Sim.join Sim.host empty_project
              (λ p, [p]) ExFalse ExFalse ExFalse)
    as (_ & _ & _ & _ & _ & Hregistry & _ & _ & Happ).
  - compute_done.
  - vm_compute; reflexivity.
  - discriminate.
  - vm_compute; reflexivity.
  - discriminate.
  - vm_compute; reflexivity.
  - discriminate.
  - split; [exact Hregistry|]. apply Happ.
    + vm_compute; reflexivity.
    + vm_compute; discriminate.
Defined.

(** C9 on a project where [server/schema] is a file: [schema.ts] is
    required, as on the host that reports the path as absent. *)
Lemma schema_path_as_file_falls_through_witness :
  NoDup (Sim.path "/app" <$> conventional_paths) ∧
  probed (trace_of Sim.host schema_file_project (loadSchemaModules (Sim.path "/app")))
    "/app/server/schema" = Some (Returns ExFile) ∧
  requires (trace_of (as_absent_host "/app/server/schema" Sim.host) schema_file_project
              (loadSchemaModules (Sim.path "/app"))) = ["/app/schema.ts"] ∧
  run (as_absent_host "/app/server/schema" Sim.host) schema_file_project
      (loadSchemaModules (Sim.path "/app")) =
    (as_absent_event "/app/server/schema" <$>
       trace_of Sim.host schema_file_project (loadSchemaModules (Sim.path "/app")),
     state_after Sim.host schema_file_project (loadSchemaModules (Sim.path "/app")),
     outcome_of Sim.host schema_file_project (loadSchemaModules (Sim.path "/app"))).
Proof.
  split; [compute_done|].
  split; [vm_compute; reflexivity|].
  split; [vm_compute; reflexivity|].
  apply (schema_path_as_file_falls_through (Sim.path "/app") Sim.host schema_file_project).
  - compute_done.
  - vm_compute; reflexivity.
Defined.

(** C6 with the options [{port: 5000}]. *)
Lemma options_override_defaults_witness :
  port port_5000 = Present (Some 5000%Z) ∧
  listening (trace_of Sim.host schema_directory_project
               (createAppAndStart (Sim.path "/app") Sim.join (Some port_5000))) = true ∧
  listens (trace_of Sim.host schema_directory_project
             (createAppAndStart (Sim.path "/app") Sim.join (Some port_5000))) =
    [Some 5000%Z] ∧
  logs (trace_of Sim.host schema_directory_project
          (createAppAndStart (Sim.path "/app") Sim.join (Some port_5000))) =
    ["🎃  Server ready at http://localhost:5000/"].
Proof.
  split; [reflexivity|].
  split; [vm_compute; reflexivity|].
  destruct (options_override_defaults (Sim.path "/app") Sim.join port_5000 Sim.host
              schema_directory_project) as (_ & _ & _ & Hport).
  destruct (Hport eq_refl) as (_ & _ & Hlistens & _ & Hlogs).
  split; [apply Hlistens|apply Hlogs; [reflexivity|]]; vm_compute; reflexivity.
Defined.

(** C10 with [startServer()] called without options. *)
Lemma default_start_message_logged_witness :
  startMessage (default emptyOptions None) = Absent ∧
  listening (trace_of Sim.host schema_directory_project
               (createAppAndStart (Sim.path "/app") Sim.join None)) = true ∧
  logs (trace_of Sim.host schema_directory_project
          (createAppAndStart (Sim.path "/app") Sim.join None)) =
    ["🎃  Server ready at http://localhost:4000/"].
Proof.
  split; [reflexivity|].
  split; [vm_compute; reflexivity|].
  apply (default_start_message_logged (Sim.path "/app") Sim.join None Sim.host
           schema_directory_project).
  - reflexivity.
  - vm_compute; reflexivity.
Defined.

(** X11 with the variable set to ['false'] in development. *)
Lemma explicit_generation_flag_wins_witness :
  let env : gmap string string :=
    {[ "PUMPKINS_SHOULD_GENERATE_ARTIFACTS" := "false"; "NODE_ENV" := "development" ]} in
  env !! "PUMPKINS_SHOULD_GENERATE_ARTIFACTS" = Some "false" ∧
  ("false" = "true" ∨ "false" = "false") ∧
  shouldGenerateArtifacts env = false ∧
  shouldGenerateArtifacts (<["NODE_ENV" := "production"]> env) = false.
Proof.
  intros env.
  split; [vm_compute; reflexivity|].
  split; [right; reflexivity|].
  destruct (explicit_generation_flag_wins env "false") as (Hflag & Hmode & _).
  - vm_compute; reflexivity.
  - right; reflexivity.
  - split; [exact Hflag|]. rewrite Hmode. exact Hflag.
Defined.

(** X3 on an empty project: the application closes over the default context
    module. *)
Lemma created_app_closes_over_loaded_context_witness :
  let app := {| startServer :=
                  startServerBody (Sim.path "/app") Sim.join true false
                    "/app/node_modules/@generated/photon" "/app/.pumpkins/context.ts"
                    {[ "createContext" := 1%positive ]} |} in
  outcome_of Sim.host empty_project (createApp (Sim.path "/app") Sim.join) = Returned app ∧
  ∃ env cpath exports pre,
    trace_of Sim.host empty_project (createApp (Sim.path "/app") Sim.join) =
      pre ++ [Event (RequireModule cpath) (Returns exports)] ∧
    envs (trace_of Sim.host empty_project (createApp (Sim.path "/app") Sim.join)) =
      [Returns env] ∧
    (cpath = "/app/server/context.ts" ∨ cpath = "/app/.pumpkins/context.ts") ∧
    startServer app =
      startServerBody (Sim.path "/app") Sim.join
        (shouldGenerateArtifacts env) (shouldExitAfterGenerateArtifacts env)
        "/app/node_modules/@generated/photon" cpath exports.
Proof.
  intros app.
  split; [vm_compute; reflexivity|].
  apply (created_app_closes_over_loaded_context (Sim.path "/app") Sim.join Sim.host
           empty_project app).
  vm_compute; reflexivity.
Defined.

(** X2 on the simulated host. *)
Lemma start_server_sequence_witness :
  raised (trace_of Sim.host empty_project
            (startServerBody (Sim.path "/app") Sim.join true false
               "/app/node_modules/@generated/photon" "/app/.pumpkins/context.ts" ∅ None)) =
    false ∧
  ∃ plugin schema server app bound,
    trace_of Sim.host empty_project
      (startServerBody (Sim.path "/app") Sim.join true false
         "/app/node_modules/@generated/photon" "/app/.pumpkins/context.ts" ∅ None) =
    [Event (NexusPrismaPlugin {|
              inputs_photon := "/app/node_modules/@generated/photon";
              outputs_typegen := "/app/node_modules/@types/nexus-typegen-prisma/index.d.ts";
              plugin_shouldGenerateArtifacts := true |}) (Returns plugin);
     Event (MakeSchema {|
              typegenAutoConfig := {|
                contextType := "Context.Context";
                sources := [
                  {| source := "/app/.pumpkins/context.ts"; alias := "Context" |};
                  {| source := "/app/node_modules/@generated/photon/index.d.ts";
                     alias := "photon" |}] |};
              schema_shouldGenerateArtifacts := true;
              schema_shouldExitAfterGenerateArtifacts := false;
              plugins := [plugin] |}) (Returns schema);
     Event (NewApolloServer {|
              apollo_playground := Some true;
              apollo_introspection := Some true;
              apollo_context := None;
              apollo_schema := schema |}) (Returns server);
     Event Express (Returns app);
     Event (ApplyMiddleware server app) (Returns tt);
     Event (AppListen app (Some 4000%Z)) (Returns bound);
     Event (ConsoleLog "🎃  Server ready at http://localhost:4000/") (Returns tt)].
Proof.
  split; [vm_compute; reflexivity|].
  destruct (start_server_sequence (Sim.path "/app") Sim.join true false
              "/app/node_modules/@generated/photon" "/app/.pumpkins/context.ts" ∅ None
              Sim.host empty_project)
    as (plugin & schema & server & app & bound & Ht).
  - vm_compute; reflexivity.
  - exists plugin, schema, server, app, bound. rewrite Ht at 1.
    vm_compute; reflexivity.
Defined.

(** X4 on a host whose [makeSchema] fails. *)
Lemma schema_build_failure_is_unguarded_witness :
  let h := failing_on is_make_schema "Error: schema" Sim.host in
  let cfg := {|
    typegenAutoConfig := {|
      contextType := "Context.Context";
      sources := [
        {| source := "/app/.pumpkins/context.ts"; alias := "Context" |};
        {| source := "/app/node_modules/@generated/photon/index.d.ts"; alias := "photon" |}] |};
    schema_shouldGenerateArtifacts := true;
    schema_shouldExitAfterGenerateArtifacts := false;
    plugins := [1%positive] |} in
  (cfg, Raises "Error: schema") ∈
    schemas (trace_of h empty_project (createAppAndStart (Sim.path "/app") Sim.join None)) ∧
  outcome_of h empty_project (createAppAndStart (Sim.path "/app") Sim.join None) =
    Propagated "Error: schema" ∧
  logs (trace_of h empty_project (createAppAndStart (Sim.path "/app") Sim.join None)) = [].
Proof.
  intros h cfg.
  assert ((cfg, Raises "Error: schema") ∈
    schemas (trace_of h empty_project (createAppAndStart (Sim.path "/app") Sim.join None)))
    as Hin.
  { vm_compute. constructor. }
  split; [exact Hin|].
  destruct (schema_build_failure_is_unguarded (Sim.path "/app") Sim.join None h empty_project
              cfg "Error: schema" Hin) as (Ho & _ & _ & _ & Hl).
  split; [exact Ho|exact Hl].
Defined.

(** X5 on a project whose [server/schema/user.ts] fails to load. *)
Lemma failing_schema_module_stops_createApp_witness :
  let h := failing_on (is_require_of "/app/server/schema/user.ts") "SyntaxError" Sim.host in
  raised (trace_of h schema_directory_project (loadSchemaModules (Sim.path "/app"))) = true ∧
  requires (trace_of h schema_directory_project (createApp (Sim.path "/app") Sim.join)) =
    ["/app/server/schema/user.ts"] ∧
  outcome_of h schema_directory_project (createApp (Sim.path "/app") Sim.join) =
    Propagated "SyntaxError" ∧
  writes (trace_of h schema_directory_project (createApp (Sim.path "/app") Sim.join)) = [].
Proof.
  intros h.
  split; [vm_compute; reflexivity|].
  destruct (failing_schema_module_stops_createApp (Sim.path "/app") Sim.join h
              schema_directory_project) as (Ht & _ & _ & Hw).
  - vm_compute; reflexivity.
  - split; [rewrite Ht; vm_compute; reflexivity|].
    split; [vm_compute; reflexivity|exact Hw].
Defined.

(** X8 with the options [{startMessage: undefined}]. *)
Lemma undefined_start_message_is_type_error_witness :
  startMessage undefined_start_message = Present None ∧
  listening (trace_of Sim.host empty_project
               (createAppAndStart (Sim.path "/app") Sim.join
                  (Some undefined_start_message))) = true ∧
  logs (trace_of Sim.host empty_project
          (createAppAndStart (Sim.path "/app") Sim.join (Some undefined_start_message))) = [] ∧
  ∃ msg, outcome_of Sim.host empty_project
           (createAppAndStart (Sim.path "/app") Sim.join (Some undefined_start_message)) =
         Threw msg.
Proof.
  split; [reflexivity|].
  split; [vm_compute; reflexivity|].
  apply (undefined_start_message_is_type_error (Sim.path "/app") Sim.join
           undefined_start_message Sim.host empty_project).
  - reflexivity.
  - vm_compute; reflexivity.
Defined.

(** X9 with the options [{port: undefined}]. *)
Lemma undefined_port_is_passed_on_witness :
  port undefined_port = Present None ∧
  listening (trace_of Sim.host empty_project
               (createAppAndStart (Sim.path "/app") Sim.join (Some undefined_port))) = true ∧
  listens (trace_of Sim.host empty_project
             (createAppAndStart (Sim.path "/app") Sim.join (Some undefined_port))) = [None] ∧
  logs (trace_of Sim.host empty_project
          (createAppAndStart (Sim.path "/app") Sim.join (Some undefined_port))) =
    ["🎃  Server ready at http://localhost:undefined/"].
Proof.
  split; [reflexivity|].
  split; [vm_compute; reflexivity|].
  destruct (undefined_port_is_passed_on (Sim.path "/app") Sim.join undefined_port Sim.host
              empty_project) as (_ & Hlistens & Hlogs).
  - reflexivity.
  - split; [apply Hlistens|apply Hlogs; [reflexivity|]]; vm_compute; reflexivity.
Defined.

(** X13 on a project whose schema directory holds no module. *)
Lemma empty_schema_directory_shadows_schema_files_witness :
  Sim.exists_ empty_schema_directory_project "/app/schema.ts" = ExFile ∧
  ("/app/server/schema", find_schema_options, Returns []) ∈
    finds (trace_of Sim.host empty_schema_directory_project
             (loadSchemaModules (Sim.path "/app"))) ∧
  requires (trace_of Sim.host empty_schema_directory_project
              (loadSchemaModules (Sim.path "/app"))) = [] ∧
  probe_paths (trace_of Sim.host empty_schema_directory_project
                 (loadSchemaModules (Sim.path "/app"))) = ["/app/server/schema"].
Proof.
  split; [vm_compute; reflexivity|].
  assert (("/app/server/schema", find_schema_options, Returns []) ∈
    finds (trace_of Sim.host empty_schema_directory_project
             (loadSchemaModules (Sim.path "/app")))) as Hin.
  { vm_compute. constructor. }
  split; [exact Hin|].
  destruct (empty_schema_directory_shadows_schema_files (Sim.path "/app") Sim.host
              empty_schema_directory_project Hin) as (Hr & Hp & _).
  split; [exact Hr|exact Hp].
Defined.
